(** * Options pricer front end: pricer store, blotter serialisation and the
      structure aggregator

    A shallow embedding of [frontend/src/stores/pricerStore.ts], of the Add
    Order handler of [components/Pricer/AddOrderButton.tsx] and of the typed
    vocabulary of [frontend/src/types/index.ts].

    - JavaScript numbers are IEEE binary64 values, modelled by [spec_float]
      (the inductive specification of binary floats of the Rocq library) at
      precision 53 and maximal exponent 1024.
    - JavaScript strings are modelled by [string] (the ASCII fragment).
    - The zustand store is a record; every action is a function on the
      record; the REST collaborators are parameters that either resolve
      with a value or reject with a message. *)

From Stdlib Require Import ZArith NArith QArith Qcanon Lia Bool.
From Stdlib Require Import Ascii String.
From Stdlib Require Import Decimal DecimalString DecimalPos.
From Stdlib Require Hexadecimal HexadecimalString.
From Stdlib Require Import Floats.SpecFloat.
From stdpp Require Import base option list strings gmap numbers.

Open Scope string_scope.

(** ** The JavaScript built-ins the store relies on *)
Module JS.

(** *** Numbers *)

Definition prec : Z := 53.
Definition emax : Z := 1024.

Abbreviation number := spec_float.

Definition NaN : number := S754_nan.
Definition pos_zero : number := S754_zero false.
Definition neg_zero : number := S754_zero true.
Definition Infinity : number := S754_infinity false.

Definition neg (x : number) : number := SFopp x.
Definition abs (x : number) : number := SFabs x.
Definition add (x y : number) : number := SFadd prec emax x y.
Definition sub (x y : number) : number := SFsub prec emax x y.
Definition ltb (x y : number) : bool := SFltb x y.
Definition eqb (x y : number) : bool := SFeqb x y.

(** [x > 0] and [x < 0] as the source writes them. *)
Definition gt0 (x : number) : bool := ltb pos_zero x.
Definition lt0 (x : number) : bool := ltb x pos_zero.

(** ToBoolean on a number: [0], [-0] and [NaN] are falsy. *)
Definition truthy (x : number) : bool :=
  match x with
  | S754_zero _ | S754_nan => false
  | _ => true
  end.

(** The binary64 value nearest to [(-1)^s * m * 10^e] (ties to even). *)
Definition of_decimal (s : bool) (m : N) (e : Z) : number :=
  match m with
  | N0 => S754_zero s
  | Npos p =>
      match e with
      | Z0 => binary_round prec emax s p 0
      | Zpos k => binary_round prec emax s (p * Pos.pow 10 k) 0
      | Zneg k =>
          SFdiv prec emax (S754_finite s p 0) (S754_finite false (Pos.pow 10 k) 0)
      end
  end.

Definition of_Z (z : Z) : number :=
  match z with
  | Z0 => pos_zero
  | Zpos p => of_decimal false (Npos p) 0
  | Zneg p => of_decimal true (Npos p) 0
  end.

Definition of_nat (n : nat) : number := of_Z (Z.of_nat n).

(** Structural equality of numbers ([Object.is]): distinguishes the two
    zeros, identifies NaN with itself. *)
Definition same (x y : number) : bool :=
  match x, y with
  | S754_zero a, S754_zero b => Bool.eqb a b
  | S754_infinity a, S754_infinity b => Bool.eqb a b
  | S754_nan, S754_nan => true
  | S754_finite a m e, S754_finite b m' e' =>
      Bool.eqb a b && Pos.eqb m m' && Z.eqb e e'
  | _, _ => false
  end.

(** SameValueZero: equal as numbers ([0] and [-0] alike), or both NaN. *)
Definition sameValueZero (x y : number) : bool :=
  match x, y with
  | S754_nan, S754_nan => true
  | _, _ => eqb x y
  end.

(** *** Number::toString (radix 10)

    For a positive finite [x] the standard takes integers [n], [k], [s]
    with [k] as small as possible, [10^(k-1) <= s < 10^k] and
    [s * 10^(n-k)] converting back to [x]; among several [s] the one
    nearest to [x]. *)

Definition digits_of_N (n : N) : string := NilEmpty.string_of_uint (N.to_uint n).

Definition digits_of_Z (z : Z) : string := digits_of_N (Z.to_N z).

Fixpoint zeros (n : nat) : string :=
  match n with
  | O => ""
  | S n' => String "0" (zeros n')
  end.

(** The exact value [m * 2^e] as a fraction. *)
Definition exact (m : positive) (e : Z) : Z * Z :=
  match e with
  | Zneg k => (Zpos m, Zpos (Pos.pow 2 k))
  | _ => (Zpos m * 2 ^ e, 1)%Z
  end.

(** Least [j >= 1] with [num * 10^j >= den] (for [num < den]). *)
Fixpoint lead_shift (fuel : nat) (num den j : Z) : Z :=
  match fuel with
  | O => j
  | S fuel' =>
      if (den <=? num * 10)%Z then j
      else lead_shift fuel' (num * 10)%Z den (j + 1)%Z
  end.

(** The [n] with [10^(n-1) <= num/den < 10^n]. *)
Definition dec_exponent (num den : Z) : Z :=
  if (den <=? num)%Z
  then Z.of_nat (String.length (digits_of_Z (num / den)))
  else (1 - lead_shift 400 num den 1)%Z.

(** [x / 10^(n-k)] as a fraction [A/B]. *)
Definition scaled (num den n k : Z) : Z * Z :=
  if (n <=? k)%Z then (num * 10 ^ (k - n), den)%Z
  else (num, den * 10 ^ (n - k))%Z.

(** The [k]-digit candidate for [x = S754_finite false m e], if one of the
    two neighbours of [x / 10^(n-k)] converts back to [x]. *)
Definition candidate (m : positive) (e : Z) (n k : Z) : option Z :=
  let x := S754_finite false m e in
  let '(num, den) := exact m e in
  let '(A, B) := scaled num den n k in
  let lo := (A / B)%Z in
  let r := (A mod B)%Z in
  let back (c : Z) := same (of_decimal false (Z.to_N c) (n - k)) x in
  if (r =? 0)%Z then (if back lo then Some lo else None)
  else
    let hi := (lo + 1)%Z in
    match back lo, back hi with
    | true, true =>
        match (2 * r ?= B)%Z with
        | Lt => Some lo
        | Gt => Some hi
        | Eq => Some (if Z.even lo then lo else hi)
        end
    | true, false => Some lo
    | false, true => Some hi
    | false, false => None
    end.

(** Try [k], [k+1], ... ([fuel] of them); the result is [(k, s)]. *)
Fixpoint shortest (fuel : nat) (m : positive) (e : Z) (n k : Z) : Z * Z :=
  match fuel with
  | O => let '(num, den) := exact m e in
         let '(A, B) := scaled num den n k in
         (k, (A / B)%Z)
  | S fuel' =>
      match candidate m e n k with
      | Some s => (k, s)
      | None => shortest fuel' m e n (k + 1)%Z
      end
  end.

Definition exponent_part (n : Z) : string :=
  let e := (n - 1)%Z in
  "e" +:+ (if (e <? 0)%Z then "-" else "+") +:+ digits_of_Z (Z.abs e).

(** Steps 5 to 9 of Number::toString on the digits [ds] of [s]. *)
Definition layout (n : Z) (ds : string) : string :=
  let k := Z.of_nat (String.length ds) in
  if ((k <=? n) && (n <=? 21))%Z then
    ds +:+ zeros (Z.to_nat (n - k))
  else if ((0 <? n) && (n <=? 21))%Z then
    substring 0 (Z.to_nat n) ds +:+ "." +:+
    substring (Z.to_nat n) (Z.to_nat (k - n)) ds
  else if ((-6 <? n) && (n <=? 0))%Z then
    "0." +:+ zeros (Z.to_nat (- n)) +:+ ds
  else if (k =? 1)%Z then
    ds +:+ exponent_part n
  else
    substring 0 1 ds +:+ "." +:+ substring 1 (Z.to_nat (k - 1)) ds
      +:+ exponent_part n.

Definition to_string_pos (m : positive) (e : Z) : string :=
  let '(num, den) := exact m e in
  let n := dec_exponent num den in
  let '(k, s) := shortest 17 m e n 1 in
  if (s =? 10 ^ k)%Z then layout (n + 1) "1" else layout n (digits_of_Z s).

(** [String(x)] and the template-literal conversion of a number. *)
Definition to_string (x : number) : string :=
  match x with
  | S754_nan => "NaN"
  | S754_zero _ => "0"
  | S754_infinity s => if s then "-Infinity" else "Infinity"
  | S754_finite s m e =>
      (if s then "-" else "") +:+ to_string_pos m e
  end.

(** *** Number.prototype.toFixed *)

(** The integer [n] for which [n / 10^f - m * 2^e] is as close to zero as
    possible, the larger [n] when there are two. *)
Definition round_half_up (m : positive) (e : Z) (f : nat) : Z :=
  let '(num, den) := exact m e in
  ((2 * num * 10 ^ Z.of_nat f + den) / (2 * den))%Z.

Definition fixed_digits (n : Z) (f : nat) : string :=
  let ds := digits_of_Z n in
  let ds := if Nat.leb (String.length ds) f
            then zeros (S f - String.length ds) +:+ ds else ds in
  let k := String.length ds in
  match f with
  | O => ds
  | _ => substring 0 (k - f) ds +:+ "." +:+ substring (k - f) f ds
  end.

Definition toFixed (x : number) (f : nat) : string :=
  match x with
  | S754_nan => "NaN"
  | S754_zero _ => fixed_digits 0 f
  | S754_infinity _ => to_string x
  | S754_finite s m e =>
      if SFleb (of_decimal false 1 21) (abs x) then to_string x
      else (if s then "-" else "") +:+ fixed_digits (round_half_up m e f) f
  end.

(** *** Strings *)

(** ToBoolean on a string: only the empty string is falsy. *)
Definition nonempty (s : string) : bool :=
  match s with
  | EmptyString => false
  | String _ _ => true
  end.

Fixpoint trimStart (s : string) : string :=
  match s with
  | EmptyString => EmptyString
  | String c s' => if Ascii.is_space c then trimStart s' else s
  end.

Definition trim (s : string) : string :=
  String.rev (trimStart (String.rev (trimStart s))).

Definition startsWith (s p : string) : bool := String.prefix p s.

Fixpoint map_chars (f : ascii -> ascii) (s : string) : string :=
  match s with
  | EmptyString => EmptyString
  | String c s' => String (f c) (map_chars f s')
  end.

Definition lower_char (c : ascii) : ascii :=
  let n := N_of_ascii c in
  if ((65 <=? n) && (n <=? 90))%N then ascii_of_N (n + 32) else c.

Definition upper_char (c : ascii) : ascii :=
  let n := N_of_ascii c in
  if ((97 <=? n) && (n <=? 122))%N then ascii_of_N (n - 32) else c.

Definition toLowerCase : string -> string := map_chars lower_char.
Definition toUpperCase : string -> string := map_chars upper_char.

(** [s.replace(/a/g, b)] for single characters [a] and [b]. *)
Definition replace_char (a b : ascii) : string -> string :=
  map_chars (fun c => if Ascii.eqb c a then b else c).

(** [s.slice(0, n)] and [s.slice(n)] for a non-negative literal [n]. *)
Definition slice_to (n : nat) (s : string) : string := substring 0 n s.
Definition slice_from (n : nat) (s : string) : string :=
  substring n (String.length s - n) s.

(** *** Numeric literals *)

Definition digit_of (radix : N) (c : ascii) : option N :=
  let n := N_of_ascii c in
  let d := if ((48 <=? n) && (n <=? 57))%N then Some (n - 48)%N
           else if ((97 <=? n) && (n <=? 122))%N then Some (n - 87)%N
           else if ((65 <=? n) && (n <=? 90))%N then Some (n - 55)%N
           else None in
  match d with
  | Some v => if (v <? radix)%N then Some v else None
  | None => None
  end.

(** Consume the longest run of digits: the accumulated value, the number
    of digits read and the rest of the string. *)
Fixpoint scan_digits (radix : N) (acc : N) (cnt : nat) (s : string)
  : N * nat * string :=
  match s with
  | EmptyString => (acc, cnt, s)
  | String c s' =>
      match digit_of radix c with
      | Some d => scan_digits radix (acc * radix + d)%N (S cnt) s'
      | None => (acc, cnt, s)
      end
  end.

(** An optional sign: [true] for a minus. *)
Definition scan_sign (s : string) : bool * string :=
  match s with
  | String "-" s' => (true, s')
  | String "+" s' => (false, s')
  | _ => (false, s)
  end.

(** An ExponentPart at the head of [s], if there is a well-formed one. *)
Definition scan_exponent (s : string) : Z * string :=
  match s with
  | String c s' =>
      if Ascii.eqb c "e" || Ascii.eqb c "E" then
        let '(neg_e, s1) := scan_sign s' in
        let '(v, cnt, s2) := scan_digits 10 0 0 s1 in
        match cnt with
        | O => (0%Z, s)
        | _ => ((if neg_e then - Z.of_N v else Z.of_N v)%Z, s2)
        end
      else (0%Z, s)
  | EmptyString => (0%Z, s)
  end.

(** The longest prefix of [s] that is a StrDecimalLiteral, with its value
    and the rest of the string. *)
Definition scan_decimal (s : string) : option (number * string) :=
  let '(sg, s0) := scan_sign s in
  if String.prefix "Infinity" s0 then
    Some (S754_infinity sg, substring 8 (String.length s0 - 8) s0)
  else
    let '(ip, c1, s1) := scan_digits 10 0 0 s0 in
    let '(m, c2, s2) :=
      match s1 with
      | String "." s1' =>
          let '(m, c2, s2) := scan_digits 10 ip 0 s1' in
          match c1, c2 with
          | O, O => (ip, O, s1)
          | _, _ => (m, c2, s2)
          end
      | _ => (ip, O, s1)
      end in
    match c1, c2 with
    | O, O => None
    | _, _ =>
        let '(ex, s3) := scan_exponent s2 in
        Some (of_decimal sg m (ex - Z.of_nat c2), s3)
    end.

(** [parseFloat(s)]. *)
Definition parseFloat (s : string) : number :=
  match scan_decimal (trimStart s) with
  | Some (x, _) => x
  | None => NaN
  end.


(** [parseInt(s)] with no radix argument. *)
Definition parseInt (s : string) : number :=
  let '(sg, s0) := scan_sign (trimStart s) in
  let '(radix, s1) :=
    match s0 with
    | String "0" (String c s') =>
        if Ascii.eqb c "x" || Ascii.eqb c "X" then (16%N, s') else (10%N, s0)
    | _ => (10%N, s0)
    end in
  let '(v, cnt, _) := scan_digits radix 0 0 s1 in
  match cnt with
  | O => NaN
  | _ => of_decimal sg v 0
  end.

(** A NonDecimalIntegerLiteral ([0x], [0o], [0b]) spanning all of [s]. *)
Definition scan_nondecimal (s : string) : option number :=
  match s with
  | String "0" (String c s') =>
      let radix :=
        if Ascii.eqb c "x" || Ascii.eqb c "X" then Some 16%N
        else if Ascii.eqb c "o" || Ascii.eqb c "O" then Some 8%N
        else if Ascii.eqb c "b" || Ascii.eqb c "B" then Some 2%N
        else None in
      match radix with
      | Some r =>
          match scan_digits r 0 0 s' with
          | (v, S _, EmptyString) => Some (of_decimal false v 0)
          | _ => None
          end
      | None => None
      end
  | _ => None
  end.

(** StringToNumber: [Number(s)] on a string. *)
Definition StringToNumber (s : string) : number :=
  let t := trim s in
  match t with
  | EmptyString => pos_zero
  | _ =>
      match scan_nondecimal t with
      | Some x => x
      | None =>
          match scan_decimal t with
          | Some (x, EmptyString) => x
          | _ => NaN
          end
      end
  end.

End JS.


(** ** The typed vocabulary ([types/index.ts]) *)

(** A field typed [number | string]. *)
Inductive numstr :=
  | VNum (x : JS.number)
  | VStr (s : string).

(** [Number(v)]. *)
Definition to_number (v : numstr) : JS.number :=
  match v with
  | VNum x => x
  | VStr s => JS.StringToNumber s
  end.

(** [v !== ''] and [v !== 0] (strict inequality never converts). *)
Definition strict_ne_empty (v : numstr) : bool :=
  match v with
  | VStr EmptyString => false
  | _ => true
  end.

Definition strict_ne_zero (v : numstr) : bool :=
  match v with
  | VNum x => negb (JS.eqb x JS.pos_zero)
  | VStr _ => true
  end.

Module LegRow.
Record t := mk {
  leg : string;
  expiry : string;
  strike : numstr;
  type : string;
  ratio : numstr;
  bid_size : string;
  bid : string;
  mid : string;
  offer : string;
  offer_size : string;
}.

(** [{ ...row, ratio: r }] *)
Definition with_ratio (r : numstr) (row : t) : t :=
  mk (leg row) (expiry row) (strike row) (type row) r
     (bid_size row) (bid row) (mid row) (offer row) (offer_size row).

(** [{ ...row, type: ty, ratio: r }] *)
Definition with_type_ratio (ty : string) (r : numstr) (row : t) : t :=
  mk (leg row) (expiry row) (strike row) ty r
     (bid_size row) (bid row) (mid row) (offer row) (offer_size row).
End LegRow.

Module OrderHeader.
Record t := mk {
  underlying : string;
  structure_name : string;
  stock_ref : JS.number;
  stock_price : JS.number;
  delta : JS.number;
}.
End OrderHeader.

Module BrokerQuote.
Record t := mk {
  broker_price : JS.number;
  quote_side : string;
  screen_mid : option JS.number;
  edge : option JS.number;
}.
End BrokerQuote.

Module CurrentStructure.
Record t := mk {
  underlying : string;
  structure_name : string;
  structure_detail : string;
  bid : option JS.number;
  mid : option JS.number;
  offer : option JS.number;
  bid_size : option JS.number;
  offer_size : option JS.number;
  multiplier : JS.number;
}.
End CurrentStructure.

Module PriceResponse.
Record t := mk {
  table_data : list LegRow.t;
  header : OrderHeader.t;
  broker_quote : option BrokerQuote.t;
  current_structure : CurrentStructure.t;
}.
End PriceResponse.

Module ParsedLeg.
Record t := mk {
  underlying : string;
  expiry : string;
  strike : JS.number;
  option_type : string;
  side : string;
  quantity : JS.number;
  ratio : JS.number;
}.
End ParsedLeg.

Module ParseResponse.
Record t := mk {
  underlying : string;
  structure_name : string;
  legs : list ParsedLeg.t;
  stock_ref : JS.number;
  delta : JS.number;
  price : JS.number;
  quote_side : string;
  quantity : JS.number;
  raw_text : string;
}.
End ParseResponse.

(** The leg of a [priceFromTable] request and the request itself
    ([api/client.ts]). *)
Module RequestLeg.
Record t := mk {
  expiry : string;
  strike : JS.number;
  option_type : string;
  side : string;
  quantity : JS.number;
  ratio : JS.number;
}.
End RequestLeg.

Module PriceRequest.
Record t := mk {
  underlying : string;
  structure_name : string;
  legs : list RequestLeg.t;
  stock_ref : JS.number;
  delta : JS.number;
  price : JS.number;
  quote_side : string;
  quantity : JS.number;
}.
End PriceRequest.

(** Optional fields ([_x?: T]) are [option]s: [None] is [undefined], which
    JSON drops and [!= null] tests for. *)
Module BlotterOrder.
Record t := mk {
  id : string;
  added_time : string;
  underlying : string;
  structure : string;
  bid : string;
  mid : string;
  offer : string;
  bid_size : string;
  offer_size : string;
  side : string;
  size : string;
  traded : string;
  bought_sold : string;
  traded_price : string;
  initiator : string;
  pnl : string;
  multiplier : JS.number;
  _table_data : option (list LegRow.t);
  _underlying : option string;
  _structure_type : option string;
  _stock_ref : option JS.number;
  _delta : option JS.number;
  _broker_price : option JS.number;
  _quote_side : option string;
  _quantity : option JS.number;
  _current_structure : option CurrentStructure.t;
}.
End BlotterOrder.

(** A promise of the REST client once settled. A rejection carries the
    [message] of the thrown [Error]. *)
Inductive outcome (A : Type) :=
  | Resolved (a : A)
  | Rejected (message : string).
Arguments Resolved {A} a.
Arguments Rejected {A} message.

(** ** The pricer store ([stores/pricerStore.ts]) *)
Module PricerStore.

Module TemplateLeg.
Record t := mk { type : string; ratio : JS.number }.
End TemplateLeg.

Definition tl (ty : string) (r : Z) : TemplateLeg.t := TemplateLeg.mk ty (JS.of_Z r).

(** Structure templates: the entries of the object literal
    [STRUCTURE_TEMPLATES], and the literal as a finite map from its own
    keys. *)
Definition template_entries : list (string * list TemplateLeg.t) :=
  [
    ("call", [tl "C" 1]);
    ("put", [tl "P" 1]);
    ("put_spread", [tl "P" 1; tl "P" (-1)]);
    ("call_spread", [tl "C" 1; tl "C" (-1)]);
    ("risk_reversal", [tl "P" (-1); tl "C" 1]);
    ("straddle", [tl "C" 1; tl "P" 1]);
    ("strangle", [tl "P" 1; tl "C" 1]);
    ("butterfly", [tl "C" 1; tl "C" (-2); tl "C" 1]);
    ("put_fly", [tl "P" 1; tl "P" (-2); tl "P" 1]);
    ("call_fly", [tl "C" 1; tl "C" (-2); tl "C" 1]);
    ("iron_butterfly", [tl "P" 1; tl "P" (-1); tl "C" (-1); tl "C" 1]);
    ("iron_condor", [tl "P" 1; tl "P" (-1); tl "C" (-1); tl "C" 1]);
    ("put_condor", [tl "P" 1; tl "P" (-1); tl "P" (-1); tl "P" 1]);
    ("call_condor", [tl "C" 1; tl "C" (-1); tl "C" (-1); tl "C" 1]);
    ("collar", [tl "P" 1; tl "C" (-1)]);
    ("call_spread_collar", [tl "P" 1; tl "C" (-1); tl "C" 1]);
    ("put_spread_collar", [tl "P" (-1); tl "P" 1; tl "C" (-1)]);
    ("put_stupid", [tl "P" 1; tl "P" 1]);
    ("call_stupid", [tl "C" 1; tl "C" 1])
  ].

Definition STRUCTURE_TEMPLATES : gmap string (list TemplateLeg.t) :=
  list_to_map template_entries.

(** The property names every object literal inherits from
    [Object.prototype]; each holds a function or an object, so it is
    truthy and has no [map] method. *)
Definition object_prototype_keys : list string :=
  [ "constructor"; "hasOwnProperty"; "isPrototypeOf"; "propertyIsEnumerable";
    "toLocaleString"; "toString"; "valueOf"; "__proto__";
    "__defineGetter__"; "__defineSetter__"; "__lookupGetter__";
    "__lookupSetter__" ].

(** [STRUCTURE_TEMPLATES[key]] *)
Inductive property :=
  | Own (template : list TemplateLeg.t)
  | Inherited
  | Undefined.

Definition get_template (key : string) : property :=
  match STRUCTURE_TEMPLATES !! key with
  | Some t => Own t
  | None => if bool_decide (key ∈ object_prototype_keys) then Inherited else Undefined
  end.

(** [key in STRUCTURE_TEMPLATES] *)
Definition in_templates (key : string) : bool :=
  match get_template key with
  | Undefined => false
  | _ => true
  end.

Definition emptyRow (i : JS.number) : LegRow.t :=
  LegRow.mk ("Leg " +:+ JS.to_string i) "" (VStr "") "" (VNum (JS.of_Z 1))
            "" "" "" "" "".

Record PricerState := mkState {
  orderText : string;
  tableData : list LegRow.t;
  header : option OrderHeader.t;
  brokerQuote : option BrokerQuote.t;
  currentStructure : option CurrentStructure.t;
  parseError : string;
  tableError : string;
  underlying : string;
  structureType : string;
  stockRef : string;
  delta : string;
  brokerPrice : string;
  quoteSide : string;
  quantity : string;
  loading : bool;
}.

(** [set({ field: v })]: the partial state is merged into the store. *)
Definition set_orderText (v : string) (s : PricerState) : PricerState :=
  mkState v (tableData s) (header s) (brokerQuote s) (currentStructure s) (parseError s) (tableError s) (underlying s) (structureType s) (stockRef s) (delta s) (brokerPrice s) (quoteSide s) (quantity s) (loading s).
Definition set_tableData (v : list LegRow.t) (s : PricerState) : PricerState :=
  mkState (orderText s) v (header s) (brokerQuote s) (currentStructure s) (parseError s) (tableError s) (underlying s) (structureType s) (stockRef s) (delta s) (brokerPrice s) (quoteSide s) (quantity s) (loading s).
Definition set_header (v : option OrderHeader.t) (s : PricerState) : PricerState :=
  mkState (orderText s) (tableData s) v (brokerQuote s) (currentStructure s) (parseError s) (tableError s) (underlying s) (structureType s) (stockRef s) (delta s) (brokerPrice s) (quoteSide s) (quantity s) (loading s).
Definition set_brokerQuote (v : option BrokerQuote.t) (s : PricerState) : PricerState :=
  mkState (orderText s) (tableData s) (header s) v (currentStructure s) (parseError s) (tableError s) (underlying s) (structureType s) (stockRef s) (delta s) (brokerPrice s) (quoteSide s) (quantity s) (loading s).
Definition set_currentStructure (v : option CurrentStructure.t) (s : PricerState) : PricerState :=
  mkState (orderText s) (tableData s) (header s) (brokerQuote s) v (parseError s) (tableError s) (underlying s) (structureType s) (stockRef s) (delta s) (brokerPrice s) (quoteSide s) (quantity s) (loading s).
Definition set_parseError (v : string) (s : PricerState) : PricerState :=
  mkState (orderText s) (tableData s) (header s) (brokerQuote s) (currentStructure s) v (tableError s) (underlying s) (structureType s) (stockRef s) (delta s) (brokerPrice s) (quoteSide s) (quantity s) (loading s).
Definition set_tableError (v : string) (s : PricerState) : PricerState :=
  mkState (orderText s) (tableData s) (header s) (brokerQuote s) (currentStructure s) (parseError s) v (underlying s) (structureType s) (stockRef s) (delta s) (brokerPrice s) (quoteSide s) (quantity s) (loading s).
Definition set_underlying (v : string) (s : PricerState) : PricerState :=
  mkState (orderText s) (tableData s) (header s) (brokerQuote s) (currentStructure s) (parseError s) (tableError s) v (structureType s) (stockRef s) (delta s) (brokerPrice s) (quoteSide s) (quantity s) (loading s).
Definition set_structureType (v : string) (s : PricerState) : PricerState :=
  mkState (orderText s) (tableData s) (header s) (brokerQuote s) (currentStructure s) (parseError s) (tableError s) (underlying s) v (stockRef s) (delta s) (brokerPrice s) (quoteSide s) (quantity s) (loading s).
Definition set_stockRef (v : string) (s : PricerState) : PricerState :=
  mkState (orderText s) (tableData s) (header s) (brokerQuote s) (currentStructure s) (parseError s) (tableError s) (underlying s) (structureType s) v (delta s) (brokerPrice s) (quoteSide s) (quantity s) (loading s).
Definition set_delta (v : string) (s : PricerState) : PricerState :=
  mkState (orderText s) (tableData s) (header s) (brokerQuote s) (currentStructure s) (parseError s) (tableError s) (underlying s) (structureType s) (stockRef s) v (brokerPrice s) (quoteSide s) (quantity s) (loading s).
Definition set_brokerPrice (v : string) (s : PricerState) : PricerState :=
  mkState (orderText s) (tableData s) (header s) (brokerQuote s) (currentStructure s) (parseError s) (tableError s) (underlying s) (structureType s) (stockRef s) (delta s) v (quoteSide s) (quantity s) (loading s).
Definition set_quoteSide (v : string) (s : PricerState) : PricerState :=
  mkState (orderText s) (tableData s) (header s) (brokerQuote s) (currentStructure s) (parseError s) (tableError s) (underlying s) (structureType s) (stockRef s) (delta s) (brokerPrice s) v (quantity s) (loading s).
Definition set_quantity (v : string) (s : PricerState) : PricerState :=
  mkState (orderText s) (tableData s) (header s) (brokerQuote s) (currentStructure s) (parseError s) (tableError s) (underlying s) (structureType s) (stockRef s) (delta s) (brokerPrice s) (quoteSide s) v (loading s).
Definition set_loading (v : bool) (s : PricerState) : PricerState :=
  mkState (orderText s) (tableData s) (header s) (brokerQuote s) (currentStructure s) (parseError s) (tableError s) (underlying s) (structureType s) (stockRef s) (delta s) (brokerPrice s) (quoteSide s) (quantity s) v.

(** The store as [create] builds it. *)
Definition initial : PricerState :=
  mkState "" [emptyRow (JS.of_Z 1); emptyRow (JS.of_Z 2)] None None None
          "" "" "" "" "" "" "" "bid" "" false.

(** The shape of the table: a row labelled [Structure] can only be the
    last row, so there is at most one. *)
Definition table_shape (rows : list LegRow.t) : Prop :=
  ∀ (i : nat) (r : LegRow.t),
    rows !! i = Some r → LegRow.leg r = "Structure" → S i = length rows.

(** The leg rows of a table, in order. *)
Definition leg_rows (rows : list LegRow.t) : list LegRow.t :=
  filter (fun r => LegRow.leg r ≠ "Structure") rows.

(** The REST collaborators of [api/client.ts]: each call settles with a
    value or rejects. *)
Section Actions.

Variable api_parseOrder : string -> outcome ParseResponse.t.
Variable api_priceStructure : ParseResponse.t -> outcome PriceResponse.t.
Variable api_priceFromTable : PriceRequest.t -> outcome PriceResponse.t.

Definition setOrderText (text : string) (s : PricerState) : PricerState :=
  set_orderText text s.

(** [set({ [field]: value })]. The callers pass the names of string-valued
    entries of the store; any other key would leave the typed state. *)
Definition setToolbarField (field value : string) (s : PricerState) : PricerState :=
  if bool_decide (field = "underlying") then set_underlying value s
  else if bool_decide (field = "structureType") then set_structureType value s
  else if bool_decide (field = "stockRef") then set_stockRef value s
  else if bool_decide (field = "delta") then set_delta value s
  else if bool_decide (field = "brokerPrice") then set_brokerPrice value s
  else if bool_decide (field = "quoteSide") then set_quoteSide value s
  else if bool_decide (field = "quantity") then set_quantity value s
  else if bool_decide (field = "orderText") then set_orderText value s
  else if bool_decide (field = "parseError") then set_parseError value s
  else if bool_decide (field = "tableError") then set_tableError value s
  else s.

Definition is_structure (r : LegRow.t) : bool :=
  bool_decide (LegRow.leg r = "Structure").

Definition applyPriceResponse (res : PriceResponse.t) (s : PricerState) : PricerState :=
  (* Separate structure row (pinned) from leg rows *)
  let legRows := filter (fun r => LegRow.leg r ≠ "Structure") (PriceResponse.table_data res) in
  let structRow := List.find is_structure (PriceResponse.table_data res) in
  set_currentStructure (Some (PriceResponse.current_structure res))
    (set_brokerQuote (PriceResponse.broker_quote res)
      (set_header (Some (PriceResponse.header res))
        (set_tableData
           match structRow with
           | Some r => legRows ++ [r]
           | None => legRows
           end s))).

(** [x > 0 ? String(x) : ''] and [x !== 0 ? String(x) : '']. *)
Definition string_if_positive (x : JS.number) : string :=
  if JS.gt0 x then JS.to_string x else "".

Definition string_if_nonzero (x : JS.number) : string :=
  if negb (JS.eqb x JS.pos_zero) then JS.to_string x else "".

Definition parseAndPrice (s : PricerState) : PricerState :=
  let orderText := orderText s in
  if negb (JS.nonempty (JS.trim orderText)) then
    set_parseError "Please enter an order." s
  else
    let s := set_tableError "" (set_parseError "" (set_loading true s)) in
    let catch (message : string) :=
      set_parseError message (set_loading false s) in
    match api_parseOrder orderText with
    | Rejected message => catch message
    | Resolved parsed =>
        match api_priceStructure parsed with
        | Rejected message => catch message
        | Resolved res =>
            let structName :=
              JS.replace_char " " "_"
                (JS.toLowerCase (ParseResponse.structure_name parsed)) in
            let s :=
              set_quantity (string_if_positive (ParseResponse.quantity parsed))
                (set_quoteSide (ParseResponse.quote_side parsed)
                  (set_brokerPrice (string_if_positive (ParseResponse.price parsed))
                    (set_delta (string_if_nonzero (ParseResponse.delta parsed))
                      (set_stockRef (string_if_positive (ParseResponse.stock_ref parsed))
                        (set_structureType
                           (if in_templates structName then structName else "")
                          (set_underlying (ParseResponse.underlying parsed)
                            (set_parseError "" (set_loading false s)))))))) in
            applyPriceResponse res s
        end
    end.

(** How [parseAndPrice] fails: on an empty input, when the parse is
    rejected, or when the pricing of the parsed order is rejected. *)
Inductive fails (s : PricerState) : string → Prop :=
  | fails_empty :
      JS.trim (orderText s) = "" → fails s "Please enter an order."
  | fails_parse message :
      JS.trim (orderText s) ≠ "" →
      api_parseOrder (orderText s) = Rejected message → fails s message
  | fails_price parsed message :
      JS.trim (orderText s) ≠ "" →
      api_parseOrder (orderText s) = Resolved parsed →
      api_priceStructure parsed = Rejected message → fails s message.

(** *** repriceFromTable *)

Definition monthMap : gmap string string :=
  list_to_map [
    ("Jan", "01"); ("Feb", "02"); ("Mar", "03"); ("Apr", "04");
    ("May", "05"); ("Jun", "06"); ("Jul", "07"); ("Aug", "08");
    ("Sep", "09"); ("Oct", "10"); ("Nov", "11"); ("Dec", "12") ].

(** The body of the loop over the leg rows: [None] is [continue]. *)
Definition legOfRow (row : LegRow.t) : option RequestLeg.t :=
  let expiry := JS.trim (LegRow.expiry row) in
  let strike := to_number (LegRow.strike row) in
  let type := JS.trim (LegRow.type row) in
  let ratio := to_number (LegRow.ratio row) in
  if negb (JS.nonempty expiry) || negb (JS.truthy strike)
     || negb (JS.nonempty type) || negb (JS.truthy ratio) then None
  else
    (* Convert expiry "Jun26" -> "2026-06-16" (approximate) *)
    let monthStr := JS.slice_to 3 expiry in
    let yearStr := JS.slice_from 3 expiry in
    match monthMap !! monthStr with
    | None => None
    | Some month =>
        if negb (JS.nonempty month) || negb (JS.nonempty yearStr) then None
        else
          let year := JS.add (JS.of_Z 2000) (JS.parseInt yearStr) in
          let expiryDate := JS.to_string year +:+ "-" +:+ month +:+ "-16" in
          Some (RequestLeg.mk expiryDate strike
                  (if bool_decide (type = "C") then "call" else "put")
                  (if JS.gt0 ratio then "buy" else "sell")
                  (JS.abs ratio) (JS.abs ratio))
    end.

Definition is_leg (r : LegRow.t) : bool := JS.startsWith (LegRow.leg r) "Leg".

(** Build legs from table rows. *)
Definition tableLegs (s : PricerState) : list RequestLeg.t :=
  omap legOfRow (List.filter is_leg (tableData s)).

(** [x || d] on numbers. *)
Definition num_or (x d : JS.number) : JS.number := if JS.truthy x then x else d.

(** [s || d] on strings. *)
Definition str_or (s d : string) : string := if JS.nonempty s then s else d.

Definition priceRequest (state : PricerState) (legs : list RequestLeg.t) : PriceRequest.t :=
  PriceRequest.mk
    (JS.toUpperCase (JS.trim (underlying state)))
    (JS.replace_char "_" " " (str_or (structureType state) "custom"))
    legs
    (num_or (JS.parseFloat (stockRef state)) JS.pos_zero)
    (num_or (JS.parseFloat (delta state)) JS.pos_zero)
    (num_or (JS.parseFloat (brokerPrice state)) JS.pos_zero)
    (str_or (quoteSide state) "bid")
    (num_or (JS.parseInt (quantity state)) (JS.of_Z 1)).

(** Up to the [await]: the store when the call returns its promise, and
    the request in flight, if one is sent. *)
Definition repriceFromTable_begin (state : PricerState)
  : PricerState * option PriceRequest.t :=
  if negb (JS.nonempty (JS.trim (underlying state))) then (state, None)
  else
    let legs := tableLegs state in
    match legs with
    | [] => (state, None)
    | _ => (set_loading true (set_tableError "" state),
            Some (priceRequest state legs))
    end.

(** After the [await]: the request has settled. *)
Definition repriceFromTable_settle (r : outcome PriceResponse.t) (s : PricerState)
  : PricerState :=
  match r with
  | Resolved res => applyPriceResponse res (set_loading false s)
  | Rejected message => set_tableError message (set_loading false s)
  end.

Definition repriceFromTable (s : PricerState) : PricerState :=
  match repriceFromTable_begin s with
  | (s', Some req) => repriceFromTable_settle (api_priceFromTable req) s'
  | (s', None) => s'
  end.

(** *** Structure builder actions *)

(** [i + 1] on an array index. *)
Definition succ_index (i : nat) : JS.number := JS.add (JS.of_nat i) (JS.of_Z 1).

Definition templateRow (i : nat) (t : TemplateLeg.t) : LegRow.t :=
  LegRow.with_type_ratio (TemplateLeg.type t) (VNum (TemplateLeg.ratio t))
    (emptyRow (succ_index i)).

(** An inherited entry is truthy but has no [map]: the call throws a
    TypeError before it reaches [set], so the store keeps its state. *)
Definition applyTemplate (structureType : string) (s : PricerState) : PricerState :=
  match get_template structureType with
  | Undefined => s
  | Inherited => s
  | Own template =>
      let rows := imap templateRow template in
      set_structureType structureType (set_tableData rows s)
  end.

Definition addRow (s : PricerState) : PricerState :=
  let rows := filter (fun r => LegRow.leg r ≠ "Structure") (tableData s) in
  set_tableData (rows ++ [emptyRow (succ_index (length rows))]) s.

Definition removeRow (s : PricerState) : PricerState :=
  let rows := filter (fun r => LegRow.leg r ≠ "Structure") (tableData s) in
  set_tableData (if Nat.ltb 1 (length rows) then removelast rows else rows) s.

(** The test of the [map] callback:
    [row.leg.startsWith('Leg') && row.ratio !== '' && row.ratio !== 0]. *)
Definition flippable (row : LegRow.t) : bool :=
  is_leg row && strict_ne_empty (LegRow.ratio row)
  && strict_ne_zero (LegRow.ratio row).

Definition flipRow (row : LegRow.t) : LegRow.t :=
  if flippable row
  then LegRow.with_ratio (VNum (JS.neg (to_number (LegRow.ratio row)))) row
  else row.


Definition flipDelta (delta : string) : string :=
  if JS.nonempty delta then JS.to_string (JS.neg (JS.parseFloat delta)) else "".

(** The store after [set({ tableData: newRows, delta: newDelta })]. *)
Definition flipped (s : PricerState) : PricerState :=
  set_delta (flipDelta (delta s)) (set_tableData (map flipRow (tableData s)) s).


(** The store once that reprice has settled too. *)
Definition flipStructure (s : PricerState) : PricerState :=
  let s' := flipped s in
  if JS.nonempty (JS.trim (underlying s)) then repriceFromTable s' else s'.

Definition clearAll (s : PricerState) : PricerState :=
  mkState "" [emptyRow (JS.of_Z 1); emptyRow (JS.of_Z 2)] None None None
          "" "" "" "" "" "" "" "bid" "" (loading s).

(** *** recallOrder *)

(** [o || d] and [o != null ? String(o) : ''] on optional fields. *)
Definition opt_str_or (o : option string) (d : string) : string :=
  match o with
  | Some v => str_or v d
  | None => d
  end.

Definition opt_num_or (o : option JS.number) (d : JS.number) : JS.number :=
  match o with
  | Some v => num_or v d
  | None => d
  end.

Definition opt_num_string (o : option JS.number) : string :=
  match o with
  | Some v => JS.to_string v
  | None => ""
  end.

Definition recalledHeader (order : BlotterOrder.t) : option OrderHeader.t :=
  match BlotterOrder._current_structure order with
  | Some cs =>
      Some (OrderHeader.mk (CurrentStructure.underlying cs)
              (CurrentStructure.structure_name cs)
              (opt_num_or (BlotterOrder._stock_ref order) JS.pos_zero)
              JS.pos_zero
              (opt_num_or (BlotterOrder._delta order) JS.pos_zero))
  | None => None
  end.

Definition recalledQuote (order : BlotterOrder.t) : option BrokerQuote.t :=
  match BlotterOrder._broker_price order, BlotterOrder._current_structure order with
  | Some price, Some cs =>
      match CurrentStructure.mid cs with
      | Some mid =>
          if JS.truthy price && JS.gt0 price then
            Some (BrokerQuote.mk price
                    (JS.toUpperCase (opt_str_or (BlotterOrder._quote_side order) "bid"))
                    (Some mid) (Some (JS.sub price mid)))
          else None
      | None => None
      end
  | _, _ => None
  end.

Definition recallOrder (order : BlotterOrder.t) (s : PricerState) : PricerState :=
  match BlotterOrder._table_data order with
  | None => s
  | Some table =>
      mkState (orderText s) table (recalledHeader order) (recalledQuote order)
        (BlotterOrder._current_structure order)
        "" ""
        (opt_str_or (BlotterOrder._underlying order) "")
        (opt_str_or (BlotterOrder._structure_type order) "")
        (opt_num_string (BlotterOrder._stock_ref order))
        (opt_num_string (BlotterOrder._delta order))
        (opt_num_string (BlotterOrder._broker_price order))
        (opt_str_or (BlotterOrder._quote_side order) "bid")
        (opt_num_string (BlotterOrder._quantity order))
        (loading s)
  end.

(** *** Views used to state properties of the actions *)

(** The leg with its side exchanged: a buy becomes a sell and a sell a
    buy. *)
Definition swap_side (leg : RequestLeg.t) : RequestLeg.t :=
  RequestLeg.mk (RequestLeg.expiry leg) (RequestLeg.strike leg)
    (RequestLeg.option_type leg)
    (if bool_decide (RequestLeg.side leg = "buy") then "sell" else "buy")
    (RequestLeg.quantity leg) (RequestLeg.ratio leg).

(** The expiry conversion inside the loop of [repriceFromTable]: the
    date string built from the trimmed expiry cell, [None] where the loop
    continues for want of a month or a year. *)
Definition expiryDate (expiry : string) : option string :=
  let monthStr := JS.slice_to 3 expiry in
  let yearStr := JS.slice_from 3 expiry in
  match monthMap !! monthStr with
  | None => None
  | Some month =>
      if negb (JS.nonempty month) || negb (JS.nonempty yearStr) then None
      else
        let year := JS.add (JS.of_Z 2000) (JS.parseInt yearStr) in
        Some (JS.to_string year +:+ "-" +:+ month +:+ "-16")
  end.

(** The entries of [monthMap], in the order of the literal. *)
Definition month_entries : list (string * string) :=
  [ ("Jan", "01"); ("Feb", "02"); ("Mar", "03"); ("Apr", "04");
    ("May", "05"); ("Jun", "06"); ("Jul", "07"); ("Aug", "08");
    ("Sep", "09"); ("Oct", "10"); ("Nov", "11"); ("Dec", "12") ].

(** A number that is not NaN. *)
Definition is_number (x : JS.number) : bool :=
  match x with
  | S754_nan => false
  | _ => true
  end.

(** *** The actions of the store *)

Inductive action :=
  | SetOrderText (text : string)
  | SetToolbarField (field value : string)
  | ParseAndPrice
  | RepriceFromTable
  | ApplyPriceResponse (res : PriceResponse.t)
  | ApplyTemplate (structureType : string)
  | AddRow
  | RemoveRow
  | FlipStructure
  | ClearAll
  | RecallOrder (order : BlotterOrder.t).

(** The store after an action has run to completion. *)
Definition run (a : action) (s : PricerState) : PricerState :=
  match a with
  | SetOrderText text => setOrderText text s
  | SetToolbarField field value => setToolbarField field value s
  | ParseAndPrice => parseAndPrice s
  | RepriceFromTable => repriceFromTable s
  | ApplyPriceResponse res => applyPriceResponse res s
  | ApplyTemplate structureType => applyTemplate structureType s
  | AddRow => addRow s
  | RemoveRow => removeRow s
  | FlipStructure => flipStructure s
  | ClearAll => clearAll s
  | RecallOrder order => recallOrder order s
  end.

End Actions.

End PricerStore.

(** ** Add Order ([components/Pricer/AddOrderButton.tsx]) *)
Module AddOrderButton.

Import PricerStore.

(** [x != null ? x.toFixed(2) : '--'] *)
Definition price_cell (x : option JS.number) : string :=
  match x with
  | Some v => JS.toFixed v 2
  | None => "--"
  end.

(** [x != null ? String(x) : '--'] *)
Definition size_cell (x : option JS.number) : string :=
  match x with
  | Some v => JS.to_string v
  | None => "--"
  end.

(** [sideMap[quoteSide] || ''] for the literal
    [{ bid: 'Bid', offer: 'Offered' }]. *)
Definition sideMap (quoteSide : string) : string :=
  if bool_decide (quoteSide = "bid") then "Bid"
  else if bool_decide (quoteSide = "offer") then "Offered"
  else "".

(** [x || undefined] *)
Definition num_or_undefined (x : JS.number) : option JS.number :=
  if JS.truthy x then Some x else None.

(** The record [handleAdd] hands to the blotter; [None] when there is no
    current structure. [id] and [added_time] stand for [genId()] and
    [localISOTimestamp()]. *)
Definition handleAdd (id added_time : string) (state : PricerState)
  : option BlotterOrder.t :=
  match currentStructure state with
  | None => None
  | Some cs =>
      Some (BlotterOrder.mk id added_time
              (CurrentStructure.underlying cs)
              (CurrentStructure.structure_name cs +:+ " " +:+
               CurrentStructure.structure_detail cs)
              (price_cell (CurrentStructure.bid cs))
              (price_cell (CurrentStructure.mid cs))
              (price_cell (CurrentStructure.offer cs))
              (size_cell (CurrentStructure.bid_size cs))
              (size_cell (CurrentStructure.offer_size cs))
              (sideMap (quoteSide state))
              (quantity state)
              "No" "" "" "" ""
              (CurrentStructure.multiplier cs)
              (Some (tableData state))
              (Some (underlying state))
              (Some (structureType state))
              (num_or_undefined (JS.parseFloat (stockRef state)))
              (num_or_undefined (JS.parseFloat (delta state)))
              (num_or_undefined (JS.parseFloat (brokerPrice state)))
              (Some (quoteSide state))
              (num_or_undefined (JS.parseInt (quantity state)))
              (Some cs))
  end.

(** *** genId and localISOTimestamp *)

(** [n.toString(16)] for a non-negative integer. *)
Definition toString16 (n : N) : string :=
  HexadecimalString.NilEmpty.string_of_uint (N.to_hex_uint n).

(** The callback of [replace(/[xy]/g, ...)] runs once per [x] or [y], from
    left to right; [random k] is the value of [(Math.random() * 16) | 0]
    in its [k]-th run. *)
Fixpoint fill_id (template : string) (random : nat -> N) (k : nat) : string :=
  match template with
  | EmptyString => EmptyString
  | String c rest =>
      if Ascii.eqb c "x" then
        toString16 (random k) +:+ fill_id rest random (S k)
      else if Ascii.eqb c "y" then
        toString16 (N.lor (N.land (random k) 3) 8) +:+ fill_id rest random (S k)
      else String c (fill_id rest random k)
  end.

(** Inline UUID generator. *)
Definition genId (random : nat -> N) : string :=
  fill_id "xxxxxxxx-xxxx-4xxx-yxxx-xxxxxxxxxxxx" random 0.

(** What [localISOTimestamp] reads off [new Date()]: [getFullYear()],
    [getMonth()], [getDate()], [getHours()], [getMinutes()] and
    [getSeconds()]. *)
Record LocalDate := mkDate {
  fullYear : JS.number;
  month : JS.number;
  date : JS.number;
  hours : JS.number;
  minutes : JS.number;
  seconds : JS.number;
}.

(** [String(n).padStart(2, '0')] *)
Definition pad (n : JS.number) : string :=
  let str := JS.to_string n in
  JS.zeros (2 - String.length str) +:+ str.

(** Local ISO 8601 timestamp: "YYYY-MM-DDTHH:MM:SS". *)
Definition localISOTimestamp (d : LocalDate) : string :=
  JS.to_string (fullYear d) +:+ "-" +:+ pad (JS.add (month d) (JS.of_Z 1)) +:+ "-"
    +:+ pad (date d) +:+ "T" +:+ pad (hours d) +:+ ":" +:+ pad (minutes d)
    +:+ ":" +:+ pad (seconds d).




End AddOrderButton.

(** ** The blotter grid ([components/Blotter/BlotterGrid.tsx]) *)
Module BlotterGrid.

(** [s.split(c)] for a one-character separator: the pieces between the
    separators, at least one. *)
Fixpoint split_on (c : ascii) (s : string) : list string :=
  match s with
  | EmptyString => [EmptyString]
  | String a s' =>
      if Ascii.eqb a c then EmptyString :: split_on c s'
      else
        match split_on c s' with
        | piece :: pieces => String a piece :: pieces
        | [] => [String a EmptyString]
        end
  end.

(** The [valueFormatter] of the Time column. *)
Definition timeFormatter (value : string) : string :=
  if negb (JS.nonempty value) then ""
  else
    let parts := split_on "T" value in
    match parts !! 1%nat with
    | Some part => if JS.nonempty part then part else value
    | None => value
    end.

(** The height of the grid for [n] orders:
    [Math.max(200, Math.min(n * 42 + 56, 600))]. *)
Definition gridHeight (n : nat) : Z :=
  Z.max 200 (Z.min (Z.of_nat n * 42 + 56) 600).

End BlotterGrid.

(** ** The pricing grid ([components/Pricer/PricingGrid.tsx]) *)
Module PricingGrid.

Import PricerStore.

(** Separate leg rows from structure row: the rows handed to the grid as
    [rowData] and as [pinnedBottomRowData]. *)
Definition legRows (tableData : list LegRow.t) : list LegRow.t :=
  filter (fun r => LegRow.leg r ≠ "Structure") tableData.

Definition structureRow (tableData : list LegRow.t) : list LegRow.t :=
  match List.find is_structure tableData with
  | Some row => [row]
  | None => []
  end.

(** [onCellValueChanged]: sync grid edits back to the store, then reprice.
    [nodes] are the rows the grid reports through [forEachNode], the
    structure row of the store is re-added after them. *)
Definition onCellValueChanged
    (api_priceFromTable : PriceRequest.t -> outcome PriceResponse.t)
    (nodes : list LegRow.t) (s : PricerState) : PricerState :=
  let rows := (nodes ++ structureRow (tableData s))%list in
  repriceFromTable api_priceFromTable (set_tableData rows s).

End PricingGrid.

(** ** The structure aggregator

    The aggregator is Python code ([structure_pricer.py]) that is not among
    the sources; the front end only displays its results. *)
Module StructureAggregator.

(** Modelled from the spec: LegMarketData of [models.py], which is missing
    from the sources. Each of bid, offer, bid size and offer size is a
    decimal or the unavailable sentinel ([None]). Decimals are exact
    rationals. *)
Record LegMarketData := mkQuote {
  bid : option Qc;
  offer : option Qc;
  bid_size : option Qc;
  offer_size : option Qc;
}.

(** Modelled from the spec: a leg of the structure as the aggregator of
    [structure_pricer.py] (missing from the sources) sees it, the signed
    ratio with the leg's market data. *)
Record Leg := mkLeg {
  ratio : Qc;
  quote : LegMarketData;
}.

(** Modelled from the spec: StructureMarketData of [models.py], missing
    from the sources. *)
Record StructureMarketData := mkStructure {
  structure_bid : option Qc;
  structure_offer : option Qc;
  structure_mid : option Qc;
  structure_bid_size : option Qc;
  structure_offer_size : option Qc;
}.

(** Modelled from the spec: the leg quote the structure bid needs in the
    missing [structure_pricer.py]: a leg that is bought ([ratio > 0]) fills
    at its offer, a leg that is sold fills at its bid. *)
Definition bid_quote (l : Leg) : option Qc :=
  if bool_decide (0 < ratio l)%Qc then offer (quote l) else bid (quote l).

(** Modelled from the spec: the leg quote the structure offer needs in the
    missing [structure_pricer.py], the opposite fill of the leg. *)
Definition offer_quote (l : Leg) : option Qc :=
  if bool_decide (0 < ratio l)%Qc then bid (quote l) else offer (quote l).

(** Modelled from the spec: the summand of the structure bid in the missing
    [structure_pricer.py], [ratio > 0 ? -ratio * leg.offer : -ratio * leg.bid];
    it is unavailable when the quote it needs is. *)
Definition bid_fill (l : Leg) : option Qc :=
  (fun p => - ratio l * p)%Qc <$> bid_quote l.

(** Modelled from the spec: the summand of the structure offer in the
    missing [structure_pricer.py], the mirror of [bid_fill] with the
    opposite fill of the leg. *)
Definition offer_fill (l : Leg) : option Qc :=
  (fun p => - ratio l * p)%Qc <$> offer_quote l.

(** Modelled from the spec: the sum over the legs in the missing
    [structure_pricer.py]; one unavailable summand makes the sum
    unavailable. *)
Fixpoint sum_fills (fill : Leg -> option Qc) (legs : list Leg) : option Qc :=
  match legs with
  | [] => Some 0%Qc
  | l :: legs' =>
      match fill l, sum_fills fill legs' with
      | Some x, Some acc => Some (x + acc)%Qc
      | _, _ => None
      end
  end.

(** Modelled from the spec: the per-leg size relevant to the structure bid
    in the missing [structure_pricer.py], the size of the quote that the
    bid side fills against. *)
Definition bid_fill_size (l : Leg) : option Qc :=
  if bool_decide (0 < ratio l)%Qc then offer_size (quote l) else bid_size (quote l).

(** Modelled from the spec: the per-leg size relevant to the structure
    offer in the missing [structure_pricer.py]. *)
Definition offer_fill_size (l : Leg) : option Qc :=
  if bool_decide (0 < ratio l)%Qc then bid_size (quote l) else offer_size (quote l).

Definition Qc_min (x y : Qc) : Qc := if bool_decide (x ≤ y)%Qc then x else y.

(** Modelled from the spec: the minimum over the per-leg sizes of a side in
    the missing [structure_pricer.py]; unavailable when a size is, or when
    there is no leg. *)
Fixpoint min_sizes (size : Leg -> option Qc) (legs : list Leg) : option Qc :=
  match legs with
  | [] => None
  | [l] => size l
  | l :: legs' =>
      match size l, min_sizes size legs' with
      | Some x, Some acc => Some (Qc_min x acc)
      | _, _ => None
      end
  end.

(** Modelled from the spec: the mid of the missing [structure_pricer.py],
    the midpoint of bid and offer when both exist. *)
Definition midpoint (b o : option Qc) : option Qc :=
  match b, o with
  | Some x, Some y => Some ((x + y) / 2)%Qc
  | _, _ => None
  end.

(** Modelled from the spec: the Structure Aggregator, the entry point of
    the missing [structure_pricer.py]. *)
Definition aggregate (legs : list Leg) : StructureMarketData :=
  let b := sum_fills bid_fill legs in
  let o := sum_fills offer_fill legs in
  mkStructure b o (midpoint b o)
    (min_sizes bid_fill_size legs) (min_sizes offer_fill_size legs).

(** A leg whose quote failed: neither bid nor offer is available. *)
Definition unavailable (l : Leg) : Prop :=
  bid (quote l) = None ∧ offer (quote l) = None.

(** The quote of the leg is not crossed. *)
Definition uncrossed (l : Leg) : Prop :=
  ∀ b o, bid (quote l) = Some b → offer (quote l) = Some o → (b ≤ o)%Qc.

End StructureAggregator.

(** ** The shape of a formatted price *)
Module Format.

Definition is_digit (c : ascii) : bool :=
  let n := N_of_ascii c in ((48 <=? n) && (n <=? 57))%N.

Fixpoint all_digits (s : string) : bool :=
  match s with
  | EmptyString => true
  | String c s' => is_digit c && all_digits s'
  end.

(** Exactly two digits. *)
Definition two_digits (s : string) : bool :=
  match s with
  | String a (String b EmptyString) => is_digit a && is_digit b
  | _ => false
  end.

(** One or more digits, a point, two digits. *)
Fixpoint digits_point_two (s : string) : bool :=
  match s with
  | EmptyString => false
  | String c s' =>
      is_digit c &&
      match s' with
      | String "." f => two_digits f
      | _ => digits_point_two s'
      end
  end.

(** A two-decimal string such as [3.50], [0.00] or [-1.20]: an optional
    minus sign, one or more digits, a point and two digits. *)
Definition two_decimal (s : string) : bool :=
  match s with
  | String "-" s' => digits_point_two s'
  | _ => digits_point_two s
  end.

(** A number that [toFixed] writes in fixed notation: finite and of
    magnitude below [10^21]. *)
Definition fixed_range (x : JS.number) : bool :=
  match x with
  | S754_zero _ => true
  | S754_finite _ _ _ => negb (SFleb (JS.of_decimal false 1 21) (JS.abs x))
  | _ => false
  end.

(** The string has no occurrence of the character. *)
Fixpoint lacks (c : ascii) (s : string) : bool :=
  match s with
  | EmptyString => true
  | String a s' => negb (Ascii.eqb a c) && lacks c s'
  end.

(** A lower-case hexadecimal digit. *)
Definition is_hex (c : ascii) : bool :=
  let n := N_of_ascii c in
  ((48 <=? n) && (n <=? 57) || (97 <=? n) && (n <=? 102))%N.

(** One of [8], [9], [a], [b]: the variant digit of a version 4 UUID. *)
Definition is_variant (c : ascii) : bool :=
  Ascii.eqb c "8" || Ascii.eqb c "9" || Ascii.eqb c "a" || Ascii.eqb c "b".

(** The string follows the template character for character: a hex digit
    for an [x], a variant digit for a [y], the template's own character
    elsewhere. *)
Fixpoint follows (template s : string) : bool :=
  match template, s with
  | EmptyString, EmptyString => true
  | String p template', String c s' =>
      (if Ascii.eqb p "x" then is_hex c
       else if Ascii.eqb p "y" then is_variant c
       else Ascii.eqb c p)
      && follows template' s'
  | _, _ => false
  end.

(** A version 4 UUID in lower case. *)
Definition is_uuid_v4 (s : string) : bool :=
  follows "xxxxxxxx-xxxx-4xxx-yxxx-xxxxxxxxxxxx" s.

End Format.

(** ** Fixtures used by the examples below *)
Module Fixtures.
Import StructureAggregator.

(** A put spread whose bid and offer are both negative: long a put quoted
    3.00 at 3.20, short a put quoted 1.00 at 1.10. *)
Definition debit_spread : list Leg :=
  [ mkLeg 1 (mkQuote (Some (Q2Qc 3)) (Some (Q2Qc (16 # 5))) (Some (Q2Qc 10)) (Some (Q2Qc 20)));
    mkLeg (-1) (mkQuote (Some (Q2Qc 1)) (Some (Q2Qc (11 # 10))) (Some (Q2Qc 30)) (Some (Q2Qc 5))) ].

(** One long leg whose own quote is crossed: bid 5, offered 3. *)
Definition crossed_leg : Leg :=
  mkLeg 1 (mkQuote (Some (Q2Qc 5)) (Some (Q2Qc 3)) None None).

(** The row [applyTemplate] builds at index [i] for a template leg: label
    [Leg i+1] in decimal, the leg's type and ratio, every other cell
    empty. *)
Definition canonicalRow (i : nat) (t : PricerStore.TemplateLeg.t) : LegRow.t :=
  LegRow.mk ("Leg " +:+ JS.digits_of_N (N.of_nat (S i))) "" (VStr "")
            (PricerStore.TemplateLeg.type t)
            (VNum (PricerStore.TemplateLeg.ratio t)) "" "" "" "" "".

(** The same row from its label, type letter and integer ratio. *)
Definition row (label ty : string) (r : Z) : LegRow.t :=
  LegRow.mk label "" (VStr "") ty (VNum (JS.of_Z r)) "" "" "" "" "".

(** A priced 1x2 put spread as the pricer shows it: two leg rows (one
    ratio typed into the grid, hence a string), an unfinished third row
    and the pinned structure row. *)
Definition spread_rows : list LegRow.t :=
  [ LegRow.mk "Leg 1" "Jun26" (VNum (JS.of_Z 240)) "P" (VNum (JS.of_Z 1))
              "10" "3.00" "3.10" "3.20" "20";
    LegRow.mk "Leg 2" "Jun26" (VStr "220") "P" (VStr "-2")
              "30" "1.00" "1.05" "1.10" "5";
    LegRow.mk "Leg 3" "" (VStr "") "" (VNum (JS.of_Z 0)) "" "" "" "" "";
    LegRow.mk "Structure" "" (VStr "") "" (VStr "") "5" "-1.20" "-1.00" "-0.80" "10" ].

Definition spread_structure : CurrentStructure.t :=
  CurrentStructure.mk "AAPL" "Put Spread" "Jun26 240/220"
    (Some (JS.of_decimal true 12 (-1))) (Some (JS.of_Z (-1)))
    (Some (JS.of_decimal true 8 (-1))) (Some (JS.of_Z 5)) None (JS.of_Z 100).

Definition priced_spread : PricerStore.PricerState :=
  PricerStore.mkState "AAPL Jun26 240/220 PS 1X2 vs250 15d 500x @ 3.50"
    spread_rows
    (Some (OrderHeader.mk "AAPL" "Put Spread" (JS.of_Z 250)
             (JS.of_decimal false 25132 (-2)) (JS.of_Z 15)))
    None (Some spread_structure)
    "" "" "AAPL" "put_spread" "250" "15" "3.5" "bid" "500" false.

(** The priced spread after a failed table reprice, with a new order text
    the parser will not accept. *)
Definition stale_spread : PricerStore.PricerState :=
  PricerStore.set_orderText "Jun26 240/220"
    (PricerStore.set_tableError "HTTP 500" priced_spread).

(** A parse endpoint that rejects every text, and a pricing endpoint that
    rejects every order. *)
Definition rejecting_parse (text : string) : outcome ParseResponse.t :=
  Rejected "no underlying ticker found".

Definition rejecting_price (parsed : ParseResponse.t) : outcome PriceResponse.t :=
  Rejected "pricing failed".

(** A blotter record whose stored table lists the structure row first. *)
Definition misordered_order : BlotterOrder.t :=
  BlotterOrder.mk "7f3a" "2026-03-02T10:15:00" "AAPL" "Put Spread Jun26 240/220"
    "-1.20" "-1.00" "-0.80" "5" "--" "Bid" "500" "No" "" "" "" ""
    (JS.of_Z 100)
    (Some [ LegRow.mk "Structure" "" (VStr "") "" (VStr "") "5" "-1.20" "-1.00" "-0.80" "10";
            LegRow.mk "Leg 1" "Jun26" (VNum (JS.of_Z 240)) "P" (VNum (JS.of_Z 1))
                      "10" "3.00" "3.10" "3.20" "20" ])
    (Some "AAPL") (Some "put_spread") (Some (JS.of_Z 250)) (Some (JS.of_Z 15))
    (Some (JS.of_decimal false 35 (-1))) (Some "bid") (Some (JS.of_Z 500))
    (Some spread_structure).

(** A table-pricing endpoint that rejects every request. *)
Definition rejecting_table (req : PriceRequest.t) : outcome PriceResponse.t :=
  Rejected "pricing failed".

(** A structure whose bid is [1e21] and whose other quotes are missing. *)
Definition huge_structure : CurrentStructure.t :=
  CurrentStructure.mk "AAPL" "Put Spread" "Jun26 240/220"
    (Some (JS.of_decimal false 1 21)) None None None None (JS.of_Z 100).

(** The priced spread with that structure as its current structure. *)
Definition huge_spread : PricerStore.PricerState :=
  PricerStore.set_currentStructure (Some huge_structure) priced_spread.

(** The priced spread with a tie of zero typed into the toolbar. *)
Definition zero_tie_spread : PricerStore.PricerState :=
  PricerStore.set_stockRef "0" priced_spread.

(** What the parse endpoint answers for the order text of the priced
    spread, and what the pricing endpoint answers for it. *)
Definition spread_parsed : ParseResponse.t :=
  ParseResponse.mk "AAPL" "Put Spread"
    [ ParsedLeg.mk "AAPL" "2026-06-16" (JS.of_Z 240) "put" "buy" (JS.of_Z 1) (JS.of_Z 1);
      ParsedLeg.mk "AAPL" "2026-06-16" (JS.of_Z 220) "put" "sell" (JS.of_Z 2) (JS.of_Z 2) ]
    (JS.of_Z 250) (JS.of_Z 15) (JS.of_decimal false 35 (-1)) "bid" (JS.of_Z 500)
    "AAPL Jun26 240/220 PS 1X2 vs250 15d 500x @ 3.50".

Definition spread_response : PriceResponse.t :=
  PriceResponse.mk spread_rows
    (OrderHeader.mk "AAPL" "Put Spread" (JS.of_Z 250)
       (JS.of_decimal false 25132 (-2)) (JS.of_Z 15))
    None spread_structure.

Definition resolving_parse (text : string) : outcome ParseResponse.t :=
  Resolved spread_parsed.

Definition resolving_price (parsed : ParseResponse.t) : outcome PriceResponse.t :=
  Resolved spread_response.

(** A source of random hex digits, and the moment 2 March 2026,
    10:15:07 local time as [Date] reports it (months count from 0). *)
Definition counting (k : nat) : N := N.of_nat k mod 16.

Definition march_second : AddOrderButton.LocalDate :=
  AddOrderButton.mkDate (JS.of_Z 2026) (JS.of_Z 2) (JS.of_Z 2)
    (JS.of_Z 10) (JS.of_Z 15) (JS.of_Z 7).

(** A put spread whose short leg has no market data at all. *)
Definition half_quoted_spread : list Leg :=
  [ mkLeg 1 (mkQuote (Some (Q2Qc 3)) (Some (Q2Qc (16 # 5))) (Some (Q2Qc 10)) (Some (Q2Qc 20)));
    mkLeg (-1) (mkQuote None None None None) ].

End Fixtures.

(** ** JS [Set]s

    A [Set] is the list of its members in insertion order, without
    repetition; members are compared by identity. *)
Module JSSet.
Section Members.
Context {A : Type} `{EqDecision A}.

Definition has (x : A) (s : list A) : bool := bool_decide (x ∈ s).

Definition add (x : A) (s : list A) : list A :=
  if has x s then s else (s ++ [x])%list.

Definition delete (x : A) (s : list A) : list A :=
  filter (λ y, y ≠ x) s.

(** [new Set(iterable)] *)
Definition new_Set (l : list A) : list A :=
  foldl (λ s x, add x s) [] l.

End Members.
End JSSet.

(** ** The blotter store ([stores/blotterStore.ts]) *)
Module BlotterStore.

Definition DEFAULT_VISIBLE : list string :=
  [ "id"; "added_time"; "underlying"; "structure";
    "bid"; "mid"; "offer";
    "side"; "size"; "traded"; "traded_price"; "initiator"; "pnl" ].

Record BlotterState := mkBlotter {
  orders : list BlotterOrder.t;
  visibleColumns : list string;
  selectedIds : list string;
}.

Definition initial : BlotterState := mkBlotter [] DEFAULT_VISIBLE [].

Definition setOrders (orders : list BlotterOrder.t) (s : BlotterState) : BlotterState :=
  mkBlotter orders (visibleColumns s) (selectedIds s).

Definition toggleColumn (colId : string) (s : BlotterState) : BlotterState :=
  let vis :=
    if bool_decide (colId ∈ visibleColumns s)
    then filter (λ c, c ≠ colId) (visibleColumns s)
    else (visibleColumns s ++ [colId])%list in
  mkBlotter (orders s) vis (selectedIds s).

Definition toggleSelectAll (s : BlotterState) : BlotterState :=
  if Nat.eqb (length (selectedIds s)) (length (orders s))
  then mkBlotter (orders s) (visibleColumns s) []
  else mkBlotter (orders s) (visibleColumns s)
         (JSSet.new_Set (BlotterOrder.id <$> orders s)).

Definition toggleSelect (id : string) (s : BlotterState) : BlotterState :=
  let next := JSSet.new_Set (selectedIds s) in
  let next := if JSSet.has id next then JSSet.delete id next
              else JSSet.add id next in
  mkBlotter (orders s) (visibleColumns s) next.

End BlotterStore.

(** ** The blotter's columns ([BlotterGrid.tsx], [ColumnToggle.tsx]) *)
Module BlotterColumns.

(** The [field]s of [ALL_COLUMNS], in order. *)
Definition ALL_COLUMNS : list string :=
  [ "id"; "added_time"; "underlying"; "structure"; "bid"; "mid"; "offer";
    "bid_size"; "offer_size"; "side"; "size"; "traded"; "bought_sold";
    "traded_price"; "initiator"; "pnl" ].

(** The fields of [columnDefs]: the columns the grid shows. *)
Definition columnDefs (visibleColumns : list string) : list string :=
  filter (λ c, c ∈ visibleColumns) ALL_COLUMNS.

(** Whether the box of column [id] is ticked in the column menu. *)
Definition checked (visibleColumns : list string) (id : string) : bool :=
  bool_decide (id ∈ visibleColumns).

End BlotterColumns.

(** ** The price socket ([api/ws.ts]) *)
Module PriceSocket.
Section Handlers.

(** Message handlers are callbacks; the socket only compares them by
    identity. *)
Context {MessageHandler : Type} `{EqDecision MessageHandler}.

(** The [handlers] map: the handlers of each channel. *)
Definition handlers := gmap string (list MessageHandler).

(** [subscribe] returns the new map and the function that unsubscribes. *)
Definition subscribe (channel : string) (handler : MessageHandler)
    (hs : handlers) : handlers * (handlers → handlers) :=
  let hs := if bool_decide (is_Some (hs !! channel)) then hs
            else <[channel := []]> hs in
  let hs := alter (JSSet.add handler) channel hs in
  (hs, λ hs', alter (JSSet.delete handler) channel hs').

(** The handlers [onmessage] goes through, in order, for a message on
    [channel]. *)
Definition listeners (channel : string) (hs : handlers) : list MessageHandler :=
  default [] (hs !! channel).

End Handlers.
End PriceSocket.

(** ** The order header ([OrderHeader.tsx]) *)
Module OrderHeaderView.

Definition deltaStr (delta : JS.number) : string :=
  if JS.gt0 delta then "+" +:+ JS.toFixed delta 0
  else if JS.lt0 delta then JS.toFixed delta 0
  else "".

(** Whether the Delta span is rendered. *)
Definition shows_delta (delta : JS.number) : bool := JS.nonempty (deltaStr delta).

End OrderHeaderView.

Module BlotterFixtures.

Definition order_with_id (id : string) : BlotterOrder.t :=
  BlotterOrder.mk id "" "" "" "" "" "" "" "" "" "" "" "" "" "" ""
    (JS.of_Z 100) None None None None None None None None None.

Definition two_orders : BlotterStore.BlotterState :=
  BlotterStore.mkBlotter [order_with_id "a1"; order_with_id "b2"]
    BlotterStore.DEFAULT_VISIBLE ["a1"].

Definition twin_orders : BlotterStore.BlotterState :=
  BlotterStore.mkBlotter [order_with_id "a1"; order_with_id "a1"]
    BlotterStore.DEFAULT_VISIBLE [].

End BlotterFixtures.

(** * Properties *)

(** ** The structure aggregator *)
Section AggregatorFacts.
Import StructureAggregator Fixtures.
Local Open Scope Qc_scope.

Lemma neg_ratio_nonneg (r : Qc) : ¬ 0 < r → 0 ≤ - r.
Proof.
  intros Hr. apply Qcnot_lt_le in Hr.
  replace 0 with (- 0) by ring. by apply Qcopp_le_compat.
Qed.

Lemma fill_le (l : Leg) (x y : Qc) :
  uncrossed l → bid_fill l = Some x → offer_fill l = Some y → x ≤ y.
Proof.
  unfold uncrossed, bid_fill, offer_fill, bid_quote, offer_quote. intros Hl Hx Hy.
  destruct (quote l) as [[b|] [o|] bs os]; simpl in *;
    case_bool_decide as Hr; simplify_eq/=.
  - (* a long leg is bought at its offer on the bid side *)
    replace (- ratio l * o) with (- (ratio l * o)) by ring.
    replace (- ratio l * b) with (- (ratio l * b)) by ring.
    apply Qcopp_le_compat.
    apply (Qcmult_le_mono_nonneg_l b o (ratio l)); [by apply Qclt_le_weak|].
    by apply Hl.
  - (* a short leg is sold at its bid on the bid side *)
    apply (Qcmult_le_mono_nonneg_l b o (- ratio l));
      [by apply neg_ratio_nonneg | by apply Hl].
Qed.

Lemma sum_fills_le (legs : list Leg) : ∀ b o : Qc,
  Forall uncrossed legs →
  sum_fills bid_fill legs = Some b →
  sum_fills offer_fill legs = Some o →
  b ≤ o.
Proof.
  induction legs as [|l legs IH]; intros b o Hall Hb Ho; simpl in *.
  - by simplify_eq.
  - inversion_clear Hall as [|? ? Hl Hall'].
    destruct (bid_fill l) as [x|] eqn:Hx; [|done].
    destruct (sum_fills bid_fill legs) as [b'|]; [|done].
    destruct (offer_fill l) as [y|] eqn:Hy; [|done].
    destruct (sum_fills offer_fill legs) as [o'|]; [|done].
    simplify_eq. apply Qcplus_le_compat; [by eapply fill_le | by apply IH].
Qed.

(** C1, as amended. For every list of legs with signed ratios in which no
    leg's quote is crossed (its bid is at most its offer), whenever the
    structure bid and the structure offer are both available the bid is
    at most the offer. The two sums alone give this: the aggregate applies
    no minimum, maximum or absolute value, so net debits keep their sign. *)
Theorem aggregate_bid_le_offer (legs : list Leg) (b o : Qc) :
  Forall uncrossed legs →
  structure_bid (aggregate legs) = Some b →
  structure_offer (aggregate legs) = Some o →
  b ≤ o.
Proof. intros Hall Hb Ho. by eapply sum_fills_le. Qed.

Lemma aggregate_bid_le_offer_witness :
  Forall uncrossed debit_spread ∧
  structure_bid (aggregate debit_spread) = Some (Q2Qc (-11 # 5)) ∧
  structure_offer (aggregate debit_spread) = Some (Q2Qc (-19 # 10)) ∧
  Q2Qc (-11 # 5) ≤ Q2Qc (-19 # 10).
Proof.
  assert (Hall : Forall uncrossed debit_spread).
  { repeat constructor; intros b o Hb Ho; simpl in *; simplify_eq; done. }
  assert (Hb : structure_bid (aggregate debit_spread) = Some (Q2Qc (-11 # 5))).
  { vm_compute. reflexivity. }
  assert (Ho : structure_offer (aggregate debit_spread) = Some (Q2Qc (-19 # 10))).
  { vm_compute. reflexivity. }
  split; [exact Hall|]. split; [exact Hb|]. split; [exact Ho|].
  exact (aggregate_bid_le_offer debit_spread _ _ Hall Hb Ho).
Defined.

(** C1, as stated, fails on a leg whose own quote is crossed: long one leg
    bid 5, offered 3 gives a structure bid of -3 above the structure offer
    of -5, although every quote is available. *)
Lemma aggregate_crossed_leg_counterexample :
  ¬ (∀ (legs : list Leg) (b o : Qc),
       Forall (λ l, is_Some (bid (quote l)) ∧ is_Some (offer (quote l))) legs →
       structure_bid (aggregate legs) = Some b →
       structure_offer (aggregate legs) = Some o →
       b ≤ o).
Proof.
  intros H.
  specialize (H [crossed_leg] (- 1 * Q2Qc 3 + 0) (- 1 * Q2Qc 5 + 0)).
  assert (Hle : - 1 * Q2Qc 3 + 0 ≤ - 1 * Q2Qc 5 + 0).
  { apply H; [|done..]. repeat constructor; by eexists. }
  by vm_compute in Hle.
Qed.

End AggregatorFacts.

(** ** Unavailable quotes *)
Section UnavailableFacts.
Import StructureAggregator Fixtures.

Lemma sum_fills_None (fill : Leg → option Qc) (legs : list Leg) (l : Leg) :
  l ∈ legs → fill l = None → sum_fills fill legs = None.
Proof.
  induction legs as [|l' legs IH]; intros Hin Hl.
  - by apply elem_of_nil in Hin.
  - apply elem_of_cons in Hin as [->|Hin]; simpl.
    + by rewrite Hl.
    + rewrite (IH Hin Hl). by destruct (fill l').
Qed.

Lemma unavailable_needs (l : Leg) :
  unavailable l → bid_quote l = None ∧ offer_quote l = None.
Proof.
  unfold unavailable, bid_quote, offer_quote. intros [-> ->].
  by case_bool_decide.
Qed.

(** C2. If a leg's quote that a side needs is unavailable, that side of
    the structure is the unavailable sentinel and not a number built from
    the other legs; the mid is unavailable as soon as one side is; and when
    every leg of a structure (which has at least one leg) is unavailable,
    bid, offer and mid all are. *)
Theorem aggregate_unavailable (legs : list Leg) :
  ((∃ l, l ∈ legs ∧ bid_quote l = None) → structure_bid (aggregate legs) = None) ∧
  ((∃ l, l ∈ legs ∧ offer_quote l = None) → structure_offer (aggregate legs) = None) ∧
  (structure_bid (aggregate legs) = None ∨ structure_offer (aggregate legs) = None →
   structure_mid (aggregate legs) = None) ∧
  (legs ≠ [] → Forall unavailable legs →
   structure_bid (aggregate legs) = None ∧
   structure_offer (aggregate legs) = None ∧
   structure_mid (aggregate legs) = None).
Proof.
  assert (Hbid : (∃ l, l ∈ legs ∧ bid_quote l = None) →
                 sum_fills bid_fill legs = None).
  { intros (l & Hin & Hq). apply (sum_fills_None _ _ l Hin).
    unfold bid_fill. by rewrite Hq. }
  assert (Hoffer : (∃ l, l ∈ legs ∧ offer_quote l = None) →
                   sum_fills offer_fill legs = None).
  { intros (l & Hin & Hq). apply (sum_fills_None _ _ l Hin).
    unfold offer_fill. by rewrite Hq. }
  split; [exact Hbid|]. split; [exact Hoffer|]. split.
  - unfold aggregate; cbn [structure_bid structure_offer structure_mid].
    intros [-> | ->]; [done|]. by destruct (sum_fills bid_fill legs).
  - intros Hne Hall. destruct legs as [|l legs]; [done|].
    inversion_clear Hall as [|? ? Hl _].
    destruct (unavailable_needs l Hl) as [Hb Ho].
    unfold aggregate; cbn [structure_bid structure_offer structure_mid].
    rewrite Hbid, Hoffer; [done| |]; exists l; split; (done || by left).
Qed.

Lemma aggregate_unavailable_witness :
  structure_bid (aggregate half_quoted_spread) = None ∧
  structure_offer (aggregate half_quoted_spread) = None ∧
  structure_mid (aggregate half_quoted_spread) = None.
Proof.
  destruct (aggregate_unavailable half_quoted_spread) as (Hb & Ho & Hm & _).
  assert (Hin : mkLeg (-1) (mkQuote None None None None) ∈ half_quoted_spread).
  { right. left. }
  split; [|split].
  - apply Hb. eexists. split; [exact Hin|]. reflexivity.
  - apply Ho. eexists. split; [exact Hin|]. reflexivity.
  - apply Hm. left. apply Hb. eexists. split; [exact Hin|]. reflexivity.
Defined.

End UnavailableFacts.

(** ** Templates *)
Section TemplateFacts.
Import PricerStore Fixtures.

Lemma template_listed (tag : string) (template : list TemplateLeg.t) :
  STRUCTURE_TEMPLATES !! tag = Some template → (tag, template) ∈ template_entries.
Proof. apply elem_of_list_to_map_2. Qed.

Lemma template_short (tag : string) (template : list TemplateLeg.t) :
  STRUCTURE_TEMPLATES !! tag = Some template → (length template ≤ 4)%nat.
Proof.
  intros H%template_listed. unfold template_entries in H.
  repeat (apply elem_of_cons in H as [H|H]; [simplify_eq; simpl; lia|]).
  by apply elem_of_nil in H.
Qed.

Lemma leg_label (i : nat) :
  i < 4 → "Leg " +:+ JS.to_string (succ_index i) = "Leg " +:+ JS.digits_of_N (N.of_nat (S i)).
Proof.
  intros Hi. do 4 (destruct i as [|i]; [by vm_compute|]). lia.
Qed.

Lemma templateRow_canonical (i : nat) (t : TemplateLeg.t) :
  i < 4 → templateRow i t = canonicalRow i t.
Proof.
  intros Hi. unfold templateRow, canonicalRow, emptyRow, LegRow.with_type_ratio.
  simpl. by rewrite leg_label.
Qed.

Lemma imap_templateRow (template : list TemplateLeg.t) :
  (length template ≤ 4)%nat → imap templateRow template = imap canonicalRow template.
Proof.
  intros Hlen. apply imap_ext. intros i t Hi.
  apply templateRow_canonical. apply lookup_lt_Some in Hi. lia.
Qed.

(** C3. For every tag of the template table, [applyTemplate] replaces the
    table by the tag's leg list in listing order: row [i] is labelled
    [Leg i], carries the type and the signed ratio of the [i]-th template
    leg and is empty elsewhere; nothing but the table and the structure
    type changes. For a tag that is not in the table the state is
    unchanged. The listed structures are spelled out. *)
Theorem applyTemplate_canonical (tag : string) (s : PricerState) :
  (∀ template, STRUCTURE_TEMPLATES !! tag = Some template →
     applyTemplate tag s =
       set_structureType tag (set_tableData (imap canonicalRow template) s)) ∧
  (STRUCTURE_TEMPLATES !! tag = None → applyTemplate tag s = s) ∧
  tableData (applyTemplate "put_spread" s) =
    [row "Leg 1" "P" 1; row "Leg 2" "P" (-1)] ∧
  tableData (applyTemplate "risk_reversal" s) =
    [row "Leg 1" "P" (-1); row "Leg 2" "C" 1] ∧
  tableData (applyTemplate "butterfly" s) =
    [row "Leg 1" "C" 1; row "Leg 2" "C" (-2); row "Leg 3" "C" 1] ∧
  tableData (applyTemplate "put_fly" s) =
    [row "Leg 1" "P" 1; row "Leg 2" "P" (-2); row "Leg 3" "P" 1] ∧
  tableData (applyTemplate "call_fly" s) =
    [row "Leg 1" "C" 1; row "Leg 2" "C" (-2); row "Leg 3" "C" 1] ∧
  tableData (applyTemplate "iron_condor" s) =
    [row "Leg 1" "P" 1; row "Leg 2" "P" (-1); row "Leg 3" "C" (-1); row "Leg 4" "C" 1].
Proof.
  split; [|split].
  - intros template Htag. unfold applyTemplate, get_template. rewrite Htag.
    by rewrite imap_templateRow by by eapply template_short.
  - intros Htag. unfold applyTemplate, get_template. rewrite Htag.
    by case_bool_decide.
  - repeat split; by vm_compute.
Qed.

Lemma applyTemplate_canonical_witness :
  applyTemplate "iron_condor" initial =
    set_structureType "iron_condor"
      (set_tableData
         [row "Leg 1" "P" 1; row "Leg 2" "P" (-1); row "Leg 3" "C" (-1); row "Leg 4" "C" 1]
         initial) ∧
  applyTemplate "condor" initial = initial ∧
  applyTemplate "constructor" initial = initial.
Proof.
  split; [|split].
  - rewrite (proj1 (applyTemplate_canonical "iron_condor" initial)
               [tl "P" 1; tl "P" (-1); tl "C" (-1); tl "C" 1]); by vm_compute.
  - apply (proj1 (proj2 (applyTemplate_canonical "condor" initial))). by vm_compute.
  - apply (proj1 (proj2 (applyTemplate_canonical "constructor" initial))). by vm_compute.
Defined.

End TemplateFacts.

(** ** Legs sent for repricing *)
Section RepriceFacts.
Import PricerStore Fixtures.

Lemma truthy_sign (r : JS.number) :
  JS.truthy r = true → JS.gt0 r = negb (JS.lt0 r).
Proof. by destruct r as [[]|[]| |[] m e]. Qed.

Lemma truthy_abs (r : JS.number) :
  JS.truthy r = true → JS.truthy (JS.abs r) = true ∧ JS.gt0 (JS.abs r) = true.
Proof. by destruct r as [[]|[]| |[] m e]. Qed.

Lemma legOfRow_ratio (row : LegRow.t) (leg : RequestLeg.t) :
  legOfRow row = Some leg →
  JS.truthy (to_number (LegRow.ratio row)) = true ∧
  RequestLeg.side leg =
    (if JS.gt0 (to_number (LegRow.ratio row)) then "buy" else "sell") ∧
  RequestLeg.quantity leg = JS.abs (to_number (LegRow.ratio row)) ∧
  RequestLeg.ratio leg = JS.abs (to_number (LegRow.ratio row)).
Proof.
  unfold legOfRow. intros H.
  destruct (JS.truthy (to_number (LegRow.ratio row))) eqn:Hr;
    [|by rewrite !orb_true_r in H].
  destruct (negb _ || negb _ || negb _ || negb true); [done|].
  destruct (monthMap !! _); [|done].
  destruct (negb _ || negb _); [done|]. by simplify_eq.
Qed.

(** C8. Every leg that [repriceFromTable] submits is built from a leg row
    of the table; its side is [buy] exactly when the row's ratio is
    positive and [sell] exactly when it is negative; its quantity and its
    ratio are both the absolute value of the row's ratio, which is neither
    zero nor NaN. A row whose ratio is zero or missing, or whose expiry,
    strike or type is missing, is skipped. *)
Theorem tableLegs_signed (s : PricerState) :
  (∀ leg, leg ∈ tableLegs s →
     ∃ row, row ∈ tableData s ∧ is_leg row = true ∧ legOfRow row = Some leg ∧
       let r := to_number (LegRow.ratio row) in
       (RequestLeg.side leg = "buy" ↔ JS.gt0 r = true) ∧
       (RequestLeg.side leg = "sell" ↔ JS.lt0 r = true) ∧
       RequestLeg.quantity leg = JS.abs r ∧
       RequestLeg.ratio leg = JS.abs r ∧
       JS.truthy (RequestLeg.ratio leg) = true ∧
       JS.gt0 (RequestLeg.ratio leg) = true) ∧
  (∀ row,
     JS.truthy (to_number (LegRow.ratio row)) = false ∨
     JS.trim (LegRow.expiry row) = "" ∨
     JS.truthy (to_number (LegRow.strike row)) = false ∨
     JS.trim (LegRow.type row) = "" →
     legOfRow row = None).
Proof.
  split.
  - intros leg Hleg. unfold tableLegs in Hleg.
    apply list_elem_of_omap in Hleg as (row & Hrow & Hsome).
    apply list_elem_of_In, filter_In in Hrow as [Hrow Hisleg].
    exists row. split; [by apply list_elem_of_In|]. split; [done|]. split; [done|].
    destruct (legOfRow_ratio _ _ Hsome) as (Hr & Hside & Hq & Hratio).
    pose proof (truthy_sign _ Hr) as Hsign.
    destruct (truthy_abs _ Hr) as [Habs Hpos].
    cbn zeta. rewrite Hside, Hq, Hratio.
    destruct (JS.gt0 _), (JS.lt0 _); naive_solver.
  - intros row H. unfold legOfRow.
    destruct H as [-> | [-> | [-> | ->]]]; simpl;
      by rewrite ?orb_true_r.
Qed.

Lemma tableLegs_signed_witness :
  let sold := RequestLeg.mk "2026-06-16" (JS.of_Z 220) "put" "sell" (JS.of_Z 2) (JS.of_Z 2) in
  tableLegs priced_spread =
    [ RequestLeg.mk "2026-06-16" (JS.of_Z 240) "put" "buy" (JS.of_Z 1) (JS.of_Z 1); sold ] ∧
  ∃ row, row ∈ tableData priced_spread ∧ legOfRow row = Some sold ∧
    (RequestLeg.side sold = "sell" ↔ JS.lt0 (to_number (LegRow.ratio row)) = true) ∧
    RequestLeg.quantity sold = JS.abs (to_number (LegRow.ratio row)).
Proof.
  intros sold.
  assert (Hlegs : tableLegs priced_spread =
    [ RequestLeg.mk "2026-06-16" (JS.of_Z 240) "put" "buy" (JS.of_Z 1) (JS.of_Z 1); sold ])
    by (by vm_compute).
  split; [exact Hlegs|].
  destruct (proj1 (tableLegs_signed priced_spread) sold)
    as (row & Hin & _ & Hleg & _ & Hsell & Hq & _).
  { rewrite Hlegs. right. left. }
  exists row. split; [exact Hin|]. split; [exact Hleg|].
  split; [exact Hsell | exact Hq].
Defined.

End RepriceFacts.

(** ** A failed parse *)
Section ParseFailure.
Import PricerStore Fixtures.

Variable api_parseOrder : string → outcome ParseResponse.t.
Variable api_priceStructure : ParseResponse.t → outcome PriceResponse.t.

Lemma nonempty_false (t : string) : JS.nonempty t = false ↔ t = "".
Proof. by destruct t. Qed.

(** C6, as amended. When [parseAndPrice] fails, the message is in
    [parseError] and the order text, the table, the seven toolbar fields,
    the header, the broker quote and the current structure are what they
    were before the call. A request that was sent has moreover cleared
    [tableError] and left [loading] false; an empty input touches nothing
    but [parseError]. *)
Theorem parseAndPrice_failure (s : PricerState) (message : string) :
  fails api_parseOrder api_priceStructure s message →
  let s' := parseAndPrice api_parseOrder api_priceStructure s in
  parseError s' = message ∧
  orderText s' = orderText s ∧
  tableData s' = tableData s ∧
  underlying s' = underlying s ∧
  structureType s' = structureType s ∧
  stockRef s' = stockRef s ∧
  delta s' = delta s ∧
  brokerPrice s' = brokerPrice s ∧
  quoteSide s' = quoteSide s ∧
  quantity s' = quantity s ∧
  header s' = header s ∧
  brokerQuote s' = brokerQuote s ∧
  currentStructure s' = currentStructure s ∧
  (JS.trim (orderText s) = "" →
     tableError s' = tableError s ∧ loading s' = loading s) ∧
  (JS.trim (orderText s) ≠ "" → tableError s' = "" ∧ loading s' = false).
Proof.
  intros Hfail. unfold parseAndPrice. cbv zeta.
  destruct Hfail as [Hempty | message Hne Hparse | parsed message Hne Hparse Hprice].
  - rewrite Hempty. cbn [JS.nonempty negb]. by repeat split.
  - destruct (JS.nonempty _) eqn:Hn; [|by apply nonempty_false in Hn].
    rewrite Hparse. cbn [negb]. by repeat split.
  - destruct (JS.nonempty _) eqn:Hn; [|by apply nonempty_false in Hn].
    rewrite Hparse, Hprice. cbn [negb]. by repeat split.
Qed.

End ParseFailure.

Section ParseFailureExamples.
Import PricerStore Fixtures.

Lemma parseAndPrice_failure_witness :
  let s' := parseAndPrice rejecting_parse rejecting_price stale_spread in
  parseError s' = "no underlying ticker found" ∧
  tableData s' = spread_rows ∧
  stockRef s' = "250" ∧
  currentStructure s' = Some spread_structure ∧
  tableError s' = "".
Proof.
  assert (Hfail : fails rejecting_parse rejecting_price stale_spread
                    "no underlying ticker found").
  { apply fails_parse; [by vm_compute | reflexivity]. }
  pose proof (parseAndPrice_failure rejecting_parse rejecting_price
                stale_spread _ Hfail) as H.
  cbn zeta in *.
  destruct H as (Hmsg & _ & Htable & _ & _ & Href & _ & _ & _ & _ & _ & _ & Hcs & _ & Herr).
  split; [exact Hmsg|]. split; [exact Htable|]. split; [exact Href|].
  split; [exact Hcs|]. apply Herr. by vm_compute.
Defined.

(** C6, as stated, fails: a rejected parse leaves more than [parseError]
    changed, since the [tableError] of an earlier reprice is cleared when
    the request is issued. *)
Lemma parseAndPrice_failure_counterexample :
  ¬ (∀ (api_parseOrder : string → outcome ParseResponse.t)
       (api_priceStructure : ParseResponse.t → outcome PriceResponse.t)
       (s : PricerState) (message : string),
       fails api_parseOrder api_priceStructure s message →
       parseAndPrice api_parseOrder api_priceStructure s = set_parseError message s).
Proof.
  intros H.
  specialize (H rejecting_parse rejecting_price stale_spread
                "no underlying ticker found").
  assert (Hfail : fails rejecting_parse rejecting_price stale_spread
                    "no underlying ticker found").
  { apply fails_parse; [by vm_compute | reflexivity]. }
  apply H in Hfail. apply (f_equal tableError) in Hfail. by vm_compute in Hfail.
Qed.

End ParseFailureExamples.

(** ** The shape of the table *)
Section TableShape.
Import PricerStore Fixtures.

Variable api_parseOrder : string → outcome ParseResponse.t.
Variable api_priceStructure : ParseResponse.t → outcome PriceResponse.t.
Variable api_priceFromTable : PriceRequest.t → outcome PriceResponse.t.

Abbreviation legs_only rows := (Forall (λ r, LegRow.leg r ≠ "Structure") rows).

Lemma shape_legs (rows : list LegRow.t) : legs_only rows → table_shape rows.
Proof.
  intros Hall i r Hi Hr. by destruct (Forall_lookup_1 _ _ _ _ Hall Hi).
Qed.

Lemma shape_pinned (rows : list LegRow.t) (r : LegRow.t) :
  legs_only rows → table_shape (rows ++ [r]).
Proof.
  intros Hall i r' Hi Hr'. rewrite length_app. simpl.
  apply lookup_app_Some in Hi as [Hi | [Hge Hi]].
  - by destruct (Forall_lookup_1 _ _ _ _ Hall Hi).
  - apply lookup_lt_Some in Hi as Hlt. simpl in Hlt. lia.
Qed.

Lemma leg_rows_legs_only (rows : list LegRow.t) : legs_only (leg_rows rows).
Proof.
  apply list.Forall_forall. intros r Hr.
  by apply list_elem_of_filter in Hr as [? _].
Qed.

Lemma legs_only_removelast (rows : list LegRow.t) :
  legs_only rows → legs_only (removelast rows).
Proof.
  induction rows as [|r [|r' rows] IH]; intros Hall; [done| constructor |].
  inversion_clear Hall. constructor; [done | by apply IH].
Qed.

Lemma emptyRow_not_structure (i : JS.number) : LegRow.leg (emptyRow i) ≠ "Structure".
Proof. done. Qed.

Lemma flipRow_leg (r : LegRow.t) : LegRow.leg (flipRow r) = LegRow.leg r.
Proof. unfold flipRow. by destruct (flippable r). Qed.

Lemma shape_flip (rows : list LegRow.t) :
  table_shape rows → table_shape (map flipRow rows).
Proof.
  intros Hshape i r Hi Hr. rewrite length_map.
  change (map flipRow rows) with (flipRow <$> rows) in Hi.
  apply list_lookup_fmap_Some in Hi as (r0 & -> & Hi).
  rewrite flipRow_leg in Hr. by eapply Hshape.
Qed.

Lemma applyPriceResponse_table (res : PriceResponse.t) (s : PricerState) :
  table_shape (tableData (applyPriceResponse res s)) ∧
  leg_rows (tableData (applyPriceResponse res s)) =
    leg_rows (PriceResponse.table_data res).
Proof.
  unfold applyPriceResponse. simpl.
  destruct (find is_structure _) as [r|] eqn:Hfind.
  - split; [apply shape_pinned, leg_rows_legs_only|].
    apply find_some in Hfind as [_ Hr]. apply bool_decide_eq_true in Hr.
    unfold leg_rows. rewrite list.filter_app, list_filter_filter.
    rewrite (list.filter_cons_False _ r) by (intros ?; done).
    rewrite list.filter_nil, app_nil_r.
    apply list_filter_iff. tauto.
  - split; [apply shape_legs, leg_rows_legs_only|].
    unfold leg_rows. rewrite list_filter_filter. apply list_filter_iff. tauto.
Qed.

Lemma repriceFromTable_shape (s : PricerState) :
  table_shape (tableData s) →
  table_shape (tableData (repriceFromTable api_priceFromTable s)).
Proof.
  intros Hshape. unfold repriceFromTable, repriceFromTable_begin.
  destruct (negb _); [done|]. destruct (tableLegs s); [done|].
  unfold repriceFromTable_settle. destruct (api_priceFromTable _); [|done].
  apply applyPriceResponse_table.
Qed.

(** C9, as amended. Every action of the pricer store keeps the shape of
    the table (at most one row labelled [Structure], and then as the last
    row) provided that, when the action is [recallOrder], the table stored
    in the recalled order has that shape: [recallOrder] installs the
    stored table as it is. After [applyPriceResponse] the leg rows are the
    leg rows of the response, in the order of the response. *)
Theorem run_keeps_table_shape (a : action) (s : PricerState) :
  table_shape (tableData s) →
  (∀ order table, a = RecallOrder order →
     BlotterOrder._table_data order = Some table → table_shape table) →
  table_shape
    (tableData (run api_parseOrder api_priceStructure api_priceFromTable a s)) ∧
  (∀ res, a = ApplyPriceResponse res →
     leg_rows (tableData
       (run api_parseOrder api_priceStructure api_priceFromTable a s)) =
     leg_rows (PriceResponse.table_data res)).
Proof.
  intros Hshape Hrecall. split.
  - destruct a as [text|field value| | |res|tag| | | | |order]; cbn [run].
    + done.
    + unfold setToolbarField. by repeat case_bool_decide.
    + unfold parseAndPrice. cbv zeta. destruct (negb _); [done|].
      destruct (api_parseOrder _) as [parsed|]; [|done].
      destruct (api_priceStructure _) as [res|]; [|done].
      apply applyPriceResponse_table.
    + by apply repriceFromTable_shape.
    + apply applyPriceResponse_table.
    + unfold applyTemplate. destruct (get_template tag) as [template| |]; [|done..].
      cbn [tableData set_structureType set_tableData].
      apply shape_legs, Forall_lookup_2. intros i r Hi.
      apply list_lookup_imap_Some in Hi as (t & _ & ->). done.
    + unfold addRow. cbn [tableData set_tableData]. apply shape_legs, Forall_app.
      split; [apply leg_rows_legs_only|]. by repeat constructor.
    + unfold removeRow. cbn [tableData set_tableData]. apply shape_legs.
      destruct (Nat.ltb _ _); [apply legs_only_removelast|]; apply leg_rows_legs_only.
    + unfold flipStructure. cbv zeta.
      destruct (JS.nonempty _); [apply repriceFromTable_shape|]; by apply shape_flip.
    + apply shape_legs. by repeat constructor.
    + unfold recallOrder.
      destruct (BlotterOrder._table_data order) as [table|] eqn:Htable; [|done].
      cbn [tableData]. by eapply Hrecall.
  - intros res ->. apply applyPriceResponse_table.
Qed.

End TableShape.

Section TableShapeExamples.
Import PricerStore Fixtures.

Lemma spread_rows_shape : table_shape spread_rows.
Proof.
  intros i r Hi Hr. unfold spread_rows in *.
  do 4 (destruct i as [|i]; [by simplify_eq/=|]). done.
Qed.

Lemma run_keeps_table_shape_witness :
  table_shape
    (tableData (run rejecting_parse rejecting_price rejecting_table
                  FlipStructure priced_spread)).
Proof.
  apply (run_keeps_table_shape rejecting_parse rejecting_price rejecting_table
           FlipStructure priced_spread).
  - exact spread_rows_shape.
  - intros order table Heq. discriminate Heq.
Defined.

(** C9, as stated, fails for [recallOrder]: from the initial store, whose
    table has the shape, recalling a record whose stored table lists the
    structure row first leaves that row first. *)
Lemma run_keeps_table_shape_counterexample :
  ¬ (∀ (api_parseOrder : string → outcome ParseResponse.t)
       (api_priceStructure : ParseResponse.t → outcome PriceResponse.t)
       (api_priceFromTable : PriceRequest.t → outcome PriceResponse.t)
       (a : action) (s : PricerState),
       table_shape (tableData s) →
       table_shape
         (tableData (run api_parseOrder api_priceStructure api_priceFromTable a s))).
Proof.
  intros H.
  specialize (H rejecting_parse rejecting_price rejecting_table
                (RecallOrder misordered_order) initial).
  assert (Hinit : table_shape (tableData initial)).
  { intros i r Hi Hr. do 2 (destruct i as [|i]; [by simplify_eq/=|]). done. }
  specialize (H Hinit 0 _ eq_refl eq_refl). discriminate H.
Qed.

End TableShapeExamples.

(** ** Blotter cells *)
Section CellFacts.
Import PricerStore AddOrderButton Format Fixtures.

Lemma all_digits_app (a b : string) :
  all_digits (a +:+ b) = all_digits a && all_digits b.
Proof. induction a as [|c a IH]; simpl; [done|]. by rewrite IH, andb_assoc. Qed.

Lemma all_digits_zeros (n : nat) : all_digits (JS.zeros n) = true.
Proof. induction n; simpl; done. Qed.

Lemma all_digits_uint (d : Decimal.uint) :
  all_digits (NilEmpty.string_of_uint d) = true.
Proof. induction d; simpl; done. Qed.

Lemma all_digits_of_Z (z : Z) : all_digits (JS.digits_of_Z z) = true.
Proof. apply all_digits_uint. Qed.

Lemma all_digits_substring (s : string) : ∀ i j,
  all_digits s = true → all_digits (substring i j s) = true.
Proof.
  induction s as [|c s IH]; intros [|i] [|j] Hs; simpl in *; try done.
  - apply andb_true_iff in Hs as [-> Hs]. by apply IH.
  - apply andb_true_iff in Hs as [_ Hs]. by apply IH.
  - apply andb_true_iff in Hs as [_ Hs]. by apply IH.
Qed.

Lemma length_substring (s : string) : ∀ i j,
  (i + j ≤ String.length s)%nat → String.length (substring i j s) = j.
Proof.
  induction s as [|c s IH]; intros [|i] [|j] Hlen; simpl in *; try done; try lia.
  - f_equal. apply (IH 0%nat). lia.
  - apply IH. lia.
  - apply IH. lia.
Qed.

Lemma length_append (a b : string) :
  String.length (a +:+ b) = (String.length a + String.length b)%nat.
Proof. induction a as [|c a IH]; simpl; [done|]. by rewrite IH. Qed.

Lemma length_zeros (n : nat) : String.length (JS.zeros n) = n.
Proof. induction n; simpl; [done|]. by f_equal. Qed.

Lemma digits_point_two_app (int frac : string) :
  int ≠ "" → all_digits int = true → two_digits frac = true →
  digits_point_two (int +:+ "." +:+ frac) = true.
Proof.
  induction int as [|c int IH]; intros Hne Hint Hfrac; [done|].
  simpl in Hint. apply andb_true_iff in Hint as [Hc Hint].
  change (String c int +:+ "." +:+ frac) with (String c (int +:+ "." +:+ frac)).
  simpl. rewrite Hc. simpl.
  destruct int as [|c' int].
  - done.
  - specialize (IH ltac:(done) Hint Hfrac).
    change (String c' int +:+ "." +:+ frac) with (String c' (int +:+ "." +:+ frac)) in *.
    destruct (Ascii.eqb_spec c' "."%char) as [->|Hc']; [done|].
    revert IH. generalize (int +:+ "." +:+ frac). intros rest IH.
    destruct c' as [[] [] [] [] [] [] [] []]; try done.
Qed.

Lemma two_digits_intro (s : string) :
  String.length s = 2%nat → all_digits s = true → two_digits s = true.
Proof.
  destruct s as [|a [|b [|c s]]]; simpl; try done. intros _ H.
  by rewrite andb_true_r in H.
Qed.

Lemma fixed_digits_two (n : Z) :
  digits_point_two (JS.fixed_digits n 2) = true.
Proof.
  unfold JS.fixed_digits.
  set (ds0 := JS.digits_of_Z n).
  set (ds := if Nat.leb _ _ then _ else _).
  assert (Hds : all_digits ds = true ∧ (3 ≤ String.length ds)%nat).
  { subst ds. destruct (Nat.leb_spec (String.length ds0) 2) as [Hle|Hgt].
    - rewrite all_digits_app, all_digits_zeros, length_append, length_zeros.
      split; [apply all_digits_of_Z | lia].
    - split; [apply all_digits_of_Z | lia]. }
  destruct Hds as [Hdigits Hlen].
  apply digits_point_two_app.
  - intros Hempty. apply (f_equal String.length) in Hempty.
    rewrite length_substring in Hempty; simpl in Hempty; lia.
  - by apply all_digits_substring.
  - apply two_digits_intro; [apply length_substring; lia|].
    by apply all_digits_substring.
Qed.

Lemma toFixed_two_decimal (x : JS.number) :
  fixed_range x = true → two_decimal (JS.toFixed x 2) = true.
Proof.
  destruct x as [z| | |sg m e]; cbn [fixed_range].
  - intros _. by vm_compute.
  - discriminate.
  - discriminate.
  - intros Hrange. apply negb_true_iff in Hrange.
    unfold JS.toFixed. rewrite Hrange.
    pose proof (fixed_digits_two (JS.round_half_up m e 2)) as H.
    revert H. generalize (JS.fixed_digits (JS.round_half_up m e 2) 2). intros s H.
    destruct sg.
    + exact H.
    + change ("" +:+ s) with s.
      unfold two_decimal. destruct s as [|c s]; [exact H|].
      destruct (Ascii.eqb_spec c "-"%char) as [->|Hc]; [discriminate H|].
      destruct c as [[] [] [] [] [] [] [] []]; try exact H. by destruct Hc.
Qed.

Lemma price_cell_spec (x : option JS.number) :
  (x = None → price_cell x = "--" ∧ price_cell x ≠ "0.00") ∧
  (∀ v, x = Some v →
     price_cell x = JS.toFixed v 2 ∧
     (fixed_range v = true → two_decimal (price_cell x) = true)).
Proof.
  split.
  - by intros ->.
  - intros v ->. split; [done|]. apply toFixed_two_decimal.
Qed.

Lemma size_cell_spec (x : option JS.number) :
  x = None → size_cell x = "--" ∧ size_cell x ≠ "0.00".
Proof. by intros ->. Qed.

(** C4, as amended. When the current structure is serialised for the
    blotter, each of bid, mid, offer, bid size and offer size that is
    unavailable ([null]) becomes the string [--], which is not [0.00]; the
    cells are strings, so never [null]. An available bid, mid or offer is
    written by [toFixed(2)], which yields a two-decimal string when the
    number is finite and of magnitude below [10^21]. *)
Theorem handleAdd_cells (id added_time : string) (s : PricerState)
    (cs : CurrentStructure.t) :
  currentStructure s = Some cs →
  ∃ order, handleAdd id added_time s = Some order ∧
    (CurrentStructure.bid cs = None →
       BlotterOrder.bid order = "--" ∧ BlotterOrder.bid order ≠ "0.00") ∧
    (CurrentStructure.mid cs = None →
       BlotterOrder.mid order = "--" ∧ BlotterOrder.mid order ≠ "0.00") ∧
    (CurrentStructure.offer cs = None →
       BlotterOrder.offer order = "--" ∧ BlotterOrder.offer order ≠ "0.00") ∧
    (CurrentStructure.bid_size cs = None →
       BlotterOrder.bid_size order = "--" ∧ BlotterOrder.bid_size order ≠ "0.00") ∧
    (CurrentStructure.offer_size cs = None →
       BlotterOrder.offer_size order = "--" ∧
       BlotterOrder.offer_size order ≠ "0.00") ∧
    (∀ v, CurrentStructure.bid cs = Some v →
       BlotterOrder.bid order = JS.toFixed v 2 ∧
       (fixed_range v = true → two_decimal (BlotterOrder.bid order) = true)) ∧
    (∀ v, CurrentStructure.mid cs = Some v →
       BlotterOrder.mid order = JS.toFixed v 2 ∧
       (fixed_range v = true → two_decimal (BlotterOrder.mid order) = true)) ∧
    (∀ v, CurrentStructure.offer cs = Some v →
       BlotterOrder.offer order = JS.toFixed v 2 ∧
       (fixed_range v = true → two_decimal (BlotterOrder.offer order) = true)).
Proof.
  intros Hcs. unfold handleAdd. rewrite Hcs. eexists. split; [reflexivity|].
  cbn [BlotterOrder.bid BlotterOrder.mid BlotterOrder.offer
       BlotterOrder.bid_size BlotterOrder.offer_size].
  repeat split; try apply price_cell_spec; try apply size_cell_spec; try done;
    intros; by apply (proj2 (price_cell_spec _)).
Qed.

Lemma handleAdd_cells_witness :
  ∃ order, handleAdd "7f3a" "2026-03-02T10:15:00" priced_spread = Some order ∧
    BlotterOrder.bid order = "-1.20" ∧
    two_decimal (BlotterOrder.bid order) = true ∧
    BlotterOrder.mid order = "-1.00" ∧
    BlotterOrder.offer order = "-0.80" ∧
    BlotterOrder.offer_size order = "--".
Proof.
  destruct (handleAdd_cells "7f3a" "2026-03-02T10:15:00" priced_spread
              spread_structure eq_refl)
    as (order & Horder & _ & _ & _ & _ & Hsize & Hbid & Hmid & Hoffer).
  exists order. split; [exact Horder|].
  destruct (Hbid _ eq_refl) as [Hb Hshape].
  split; [rewrite Hb; by vm_compute|].
  split; [apply Hshape; by vm_compute|].
  split; [rewrite (proj1 (Hmid _ eq_refl)); by vm_compute|].
  split; [rewrite (proj1 (Hoffer _ eq_refl)); by vm_compute|].
  exact (proj1 (Hsize eq_refl)).
Defined.

(** C4, as stated, fails for an available quote of magnitude [10^21] or
    more: a structure bid of [1e21] is written as [1e+21], which is not a
    two-decimal string. *)
Lemma handleAdd_cells_counterexample :
  ¬ (∀ (id added_time : string) (s : PricerState) (cs : CurrentStructure.t)
       (order : BlotterOrder.t) (v : JS.number),
       currentStructure s = Some cs →
       handleAdd id added_time s = Some order →
       CurrentStructure.bid cs = Some v →
       two_decimal (BlotterOrder.bid order) = true).
Proof.
  intros H.
  specialize (H "7f3a" "2026-03-02T10:15:00" huge_spread huge_structure
                _ _ eq_refl eq_refl eq_refl).
  vm_compute in H. discriminate H.
Qed.

End CellFacts.

(** ** Add Order, then recall *)
Section RecallFacts.
Import PricerStore AddOrderButton Fixtures.








End RecallFacts.

(** ** Flipping a structure *)
Section FlipFacts.
Import PricerStore Fixtures.





Lemma sameValueZero_zeros (a b : bool) :
  JS.sameValueZero (S754_zero a) (S754_zero b) = true.
Proof. done. Qed.







Lemma flipRow_flippable (row : LegRow.t) :
  flippable row = true →
  flipRow row = LegRow.with_ratio (VNum (JS.neg (to_number (LegRow.ratio row)))) row.
Proof. unfold flipRow. by intros ->. Qed.




Lemma nonempty_app_l (a b : string) :
  JS.nonempty a = true → JS.nonempty (a +:+ b) = true.
Proof. by destruct a. Qed.

Lemma nonempty_app_r (a b : string) :
  JS.nonempty b = true → JS.nonempty (a +:+ b) = true.
Proof. by destruct a. Qed.

Lemma nonempty_uint (d : Decimal.uint) :
  d ≠ Decimal.Nil → JS.nonempty (NilEmpty.string_of_uint d) = true.
Proof. by destruct d. Qed.

Lemma nonempty_digits_of_N (n : N) : JS.nonempty (JS.digits_of_N n) = true.
Proof.
  apply nonempty_uint. destruct n as [|p]; [done|].
  apply DecimalPos.Unsigned.to_uint_nonnil.
Qed.

Lemma nonempty_layout (n : Z) (ds : string) :
  JS.nonempty ds = true → JS.nonempty (JS.layout n ds) = true.
Proof.
  intros Hds. unfold JS.layout.
  repeat match goal with |- context [if ?c then _ else _] => destruct c end.
  - by apply nonempty_app_l.
  - by apply nonempty_app_r.
  - done.
  - by apply nonempty_app_l.
  - by apply nonempty_app_r.
Qed.

Lemma nonempty_to_string (x : JS.number) : JS.nonempty (JS.to_string x) = true.
Proof.
  destruct x as [a|[]| |sg m e]; try done.
  unfold JS.to_string. apply nonempty_app_r. unfold JS.to_string_pos.
  destruct (JS.exact m e) as [num den].
  destruct (JS.shortest _ _ _ _ _) as [k s].
  destruct (_ =? _)%Z; apply nonempty_layout; [done|].
  apply nonempty_digits_of_N.
Qed.








End FlipFacts.

(** * Further properties of the store *)

(** ** Rows added and removed *)
Section RowFacts.
Import PricerStore Fixtures.

Lemma filter_legs_only (rows : list LegRow.t) :
  Forall (λ r, LegRow.leg r ≠ "Structure") rows → leg_rows rows = rows.
Proof.
  unfold leg_rows. induction rows as [|r rows IH]; intros Hall; [done|].
  inversion_clear Hall as [|? ? Hr Hrows].
  rewrite list.filter_cons_True by done. by rewrite IH.
Qed.

Lemma leg_rows_idemp (rows : list LegRow.t) : leg_rows (leg_rows rows) = leg_rows rows.
Proof. apply filter_legs_only, leg_rows_legs_only. Qed.

Lemma addRow_table (s : PricerState) :
  tableData (addRow s) =
    (leg_rows (tableData s) ++
     [emptyRow (succ_index (length (leg_rows (tableData s))))])%list.
Proof. reflexivity. Qed.

(** X1. [addRow] keeps the leg rows in order, drops the pinned structure
    row and appends one empty leg row; [removeRow] straight after it gives
    back exactly the leg rows, unless there was none, in which case the
    new row stays. *)
Theorem removeRow_addRow (s : PricerState) :
  tableData (addRow s) =
    (leg_rows (tableData s) ++
     [emptyRow (succ_index (length (leg_rows (tableData s))))])%list ∧
  (leg_rows (tableData s) ≠ [] →
     tableData (removeRow (addRow s)) = leg_rows (tableData s)) ∧
  (leg_rows (tableData s) = [] →
     tableData (removeRow (addRow s)) = [emptyRow (succ_index 0)]).
Proof.
  split; [reflexivity|].
  assert (Hkeep : leg_rows (tableData (addRow s)) = tableData (addRow s)).
  { rewrite addRow_table. apply filter_legs_only, Forall_app.
    split; [apply leg_rows_legs_only | by repeat constructor]. }
  unfold removeRow. cbn [tableData set_tableData].
  fold (leg_rows (tableData (addRow s))). rewrite Hkeep, addRow_table.
  rewrite length_app. cbn [length].
  split.
  - intros Hne. destruct (leg_rows (tableData s)) as [|r rows] eqn:Hrows; [done|].
    replace (Nat.ltb 1 (length (r :: rows) + 1)) with true
      by (symmetry; apply Nat.ltb_lt; simpl; lia).
    apply removelast_last.
  - intros ->. reflexivity.
Qed.

Lemma removeRow_addRow_witness :
  tableData (removeRow (addRow priced_spread)) = leg_rows spread_rows ∧
  length (tableData (addRow priced_spread)) = 4%nat.
Proof.
  split.
  - apply (proj1 (proj2 (removeRow_addRow priced_spread))). by vm_compute.
  - rewrite (proj1 (removeRow_addRow priced_spread)). by vm_compute.
Defined.

(** X2. [removeRow] never removes the only leg row: of [n] leg rows it
    keeps the first [n - 1] when [n] is at least 2 and all of them
    otherwise, and the structure row is dropped in either case. *)
Theorem removeRow_keeps_a_row (s : PricerState) :
  let legs := leg_rows (tableData s) in
  let kept := tableData (removeRow s) in
  Forall (λ r, LegRow.leg r ≠ "Structure") kept ∧
  kept = take (Nat.max 1 (length legs - 1)) legs ∧
  (legs ≠ [] → kept ≠ []).
Proof.
  cbv zeta. unfold removeRow. cbn [tableData set_tableData].
  fold (leg_rows (tableData s)).
  set (legs := leg_rows (tableData s)).
  assert (Hlegs : Forall (λ r, LegRow.leg r ≠ "Structure") legs)
    by apply leg_rows_legs_only.
  destruct (Nat.ltb_spec 1 (length legs)) as [Hlt|Hge].
  - assert (Hlast : removelast legs = take (length legs - 1) legs).
    { destruct (exists_last (l := legs)) as (l' & a & ->).
      - intros ->. simpl in Hlt. lia.
      - rewrite removelast_last, length_app. simpl.
        replace (length l' + 1 - 1)%nat with (length l') by lia.
        by rewrite take_app_length. }
    split; [by apply legs_only_removelast|]. split.
    + rewrite Hlast. f_equal. lia.
    + intros _ Hnil. rewrite Hlast in Hnil.
      apply (f_equal length) in Hnil. rewrite length_take in Hnil.
      simpl in Hnil. lia.
  - split; [done|]. split; [|done].
    symmetry. apply take_ge. lia.
Qed.

Lemma removeRow_keeps_a_row_witness :
  tableData (removeRow priced_spread) = take 2 (leg_rows spread_rows) ∧
  tableData (removeRow priced_spread) ≠ [].
Proof.
  destruct (removeRow_keeps_a_row priced_spread) as (_ & Hkept & Hne).
  split; [exact Hkept|]. apply Hne. by vm_compute.
Defined.

End RowFacts.

(** ** Flipping and the legs sent *)
Section FlipLegs.
Import PricerStore Fixtures.

Lemma truthy_neg (x : JS.number) : JS.truthy (JS.neg x) = JS.truthy x.
Proof. by destruct x as [[]|[]| |[] m e]. Qed.

Lemma abs_neg (x : JS.number) : JS.abs (JS.neg x) = JS.abs x.
Proof. by destruct x as [[]|[]| |[] m e]. Qed.

Lemma gt0_neg (x : JS.number) :
  JS.truthy x = true → JS.gt0 (JS.neg x) = negb (JS.gt0 x).
Proof. by destruct x as [[]|[]| |[] m e]. Qed.

Lemma truthy_flippable (row : LegRow.t) :
  is_leg row = true → JS.truthy (to_number (LegRow.ratio row)) = true →
  flippable row = true.
Proof.
  unfold flippable. intros -> Hr.
  destruct (LegRow.ratio row) as [x|str]; cbn [to_number] in Hr.
  - cbn [strict_ne_empty strict_ne_zero andb].
    by destruct x as [[]|[]| |[] m e].
  - destruct str as [|c str]; [discriminate Hr | done].
Qed.

Lemma falsy_legOfRow (row : LegRow.t) :
  JS.truthy (to_number (LegRow.ratio row)) = false → legOfRow row = None.
Proof. intros H. unfold legOfRow. rewrite H. by rewrite !orb_true_r. Qed.

(** The leg built from a row in which a truthy ratio is replaced by its
    negation. *)
Lemma legOfRow_negated (row : LegRow.t) :
  JS.truthy (to_number (LegRow.ratio row)) = true →
  legOfRow (LegRow.with_ratio (VNum (JS.neg (to_number (LegRow.ratio row)))) row) =
    swap_side <$> legOfRow row.
Proof.
  intros Hr. unfold legOfRow.
  cbn [LegRow.expiry LegRow.strike LegRow.type LegRow.ratio LegRow.with_ratio
       to_number].
  rewrite truthy_neg, Hr, abs_neg, (gt0_neg _ Hr).
  destruct (negb _ || negb _ || negb _ || negb true); [done|].
  destruct (monthMap !! _) as [month|]; [|done].
  destruct (negb _ || negb _); [done|].
  cbn [fmap option_fmap option_map]. unfold swap_side. cbn [RequestLeg.side
    RequestLeg.expiry RequestLeg.strike RequestLeg.option_type
    RequestLeg.quantity RequestLeg.ratio].
  by destruct (JS.gt0 _).
Qed.

Lemma legOfRow_flipRow (row : LegRow.t) :
  is_leg row = true → legOfRow (flipRow row) = swap_side <$> legOfRow row.
Proof.
  intros Hleg.
  destruct (JS.truthy (to_number (LegRow.ratio row))) eqn:Hr.
  - rewrite (flipRow_flippable row (truthy_flippable row Hleg Hr)).
    by apply legOfRow_negated.
  - rewrite (falsy_legOfRow row Hr).
    unfold flipRow. destruct (flippable row); [|by rewrite (falsy_legOfRow row Hr)].
    apply falsy_legOfRow.
    cbn [LegRow.ratio LegRow.with_ratio to_number]. by rewrite truthy_neg.
Qed.

Lemma is_leg_flipRow (row : LegRow.t) : is_leg (flipRow row) = is_leg row.
Proof. unfold is_leg. by rewrite flipRow_leg. Qed.

(** X3. After a flip the legs sent for repricing are the legs that would
    have been sent before it, in the same order, each with its side
    exchanged (buy for sell, sell for buy) and with the same expiry,
    strike, option type, quantity and ratio. *)
Theorem tableLegs_flipped (s : PricerState) :
  tableLegs (flipped s) = swap_side <$> tableLegs s.
Proof.
  unfold tableLegs, flipped. cbn [tableData set_delta set_tableData].
  induction (tableData s) as [|row rows IH]; [done|].
  cbn [map List.filter]. rewrite is_leg_flipRow.
  destruct (is_leg row) eqn:Hleg; [|exact IH].
  cbn [omap list_omap]. rewrite (legOfRow_flipRow row Hleg).
  destruct (legOfRow row) as [leg|]; cbn [fmap option_fmap option_map].
  - rewrite fmap_cons. f_equal. exact IH.
  - exact IH.
Qed.

End FlipLegs.

(** ** Requests that are not sent, and requests that fail *)
Section RepriceUnsent.
Import PricerStore.

Variable api_priceFromTable : PriceRequest.t → outcome PriceResponse.t.

Lemma repriceFromTable_blank (s : PricerState) :
  JS.trim (underlying s) = "" →
  repriceFromTable_begin s = (s, None) ∧
  repriceFromTable api_priceFromTable s = s.
Proof.
  intros Hblank. unfold repriceFromTable, repriceFromTable_begin.
  rewrite Hblank. by cbn [JS.nonempty negb].
Qed.

End RepriceUnsent.

Section RepriceOutcome.
Import PricerStore Fixtures.

Variable api_priceFromTable : PriceRequest.t → outcome PriceResponse.t.

(** X4. [repriceFromTable] leaves the store exactly as it is when the
    underlying is blank or no leg row is complete; then no request is
    built. When a request is sent and rejected, nothing changes but
    [tableError], which takes the message, and [loading], which ends
    false: the table keeps the user's edits. *)
Theorem repriceFromTable_unsent_or_rejected (s : PricerState) :
  (JS.trim (underlying s) = "" ∨ tableLegs s = [] →
     repriceFromTable_begin s = (s, None) ∧
     repriceFromTable api_priceFromTable s = s) ∧
  (∀ message,
     JS.trim (underlying s) ≠ "" → tableLegs s ≠ [] →
     api_priceFromTable (priceRequest s (tableLegs s)) = Rejected message →
     repriceFromTable api_priceFromTable s =
       set_tableError message (set_loading false s)).
Proof.
  split.
  - intros [Hblank | Hnone].
    + by apply repriceFromTable_blank.
    + unfold repriceFromTable, repriceFromTable_begin.
      rewrite Hnone. by destruct (negb _).
  - intros message Hu Hlegs Hrej.
    unfold repriceFromTable, repriceFromTable_begin.
    destruct (JS.nonempty _) eqn:Hn; [|by apply nonempty_false in Hn].
    cbn [negb]. destruct (tableLegs s) as [|leg legs] eqn:Hl; [done|].
    rewrite Hrej. reflexivity.
Qed.

End RepriceOutcome.

Section RepriceOutcomeExamples.
Import PricerStore Fixtures.

Lemma repriceFromTable_unsent_or_rejected_witness :
  repriceFromTable rejecting_table initial = initial ∧
  repriceFromTable rejecting_table priced_spread =
    set_tableError "pricing failed" priced_spread.
Proof.
  destruct (repriceFromTable_unsent_or_rejected rejecting_table initial)
    as [Hunsent _].
  destruct (repriceFromTable_unsent_or_rejected rejecting_table priced_spread)
    as [_ Hrej].
  split.
  - apply Hunsent. left. by vm_compute.
  - rewrite (Hrej "pricing failed"); [reflexivity | | | reflexivity].
    + by vm_compute.
    + by vm_compute.
Defined.

End RepriceOutcomeExamples.

(** ** What a price request carries *)
Section RequestFacts.
Import PricerStore Fixtures.

Lemma num_or_number (x d : JS.number) :
  is_number d = true → is_number (num_or x d) = true.
Proof. unfold num_or. by destruct x as [[]|[]| |[] m e]. Qed.

Lemma str_or_nonempty (v d : string) :
  JS.nonempty d = true → JS.nonempty (str_or v d) = true.
Proof. unfold str_or. by destruct v. Qed.

Lemma nonempty_map_chars (f : ascii → ascii) (v : string) :
  JS.nonempty (JS.map_chars f v) = JS.nonempty v.
Proof. by destruct v. Qed.

Lemma upper_char_not_lower (c : ascii) :
  let n := N_of_ascii (JS.upper_char c) in
  ((97 <=? n) && (n <=? 122))%N = false.
Proof. by destruct c as [[] [] [] [] [] [] [] []]. Qed.

(** The ASCII letters [a] to [z]. *)
Lemma toUpperCase_no_lower (v : string) (c : ascii) :
  In c (list_ascii_of_string (JS.toUpperCase v)) →
  ((97 <=? N_of_ascii c) && (N_of_ascii c <=? 122))%N = false.
Proof.
  induction v as [|a v IH]; simpl; [done|].
  intros [<- | Hin]; [apply upper_char_not_lower | by apply IH].
Qed.

(** X5. Whatever the toolbar holds, the request built for the pricing
    endpoint carries no NaN (stock reference, delta and price fall back to
    0), a quantity that is neither zero nor NaN (it falls back to 1), a
    non-empty quote side (falling back to [bid]), a non-empty structure
    name (falling back to [custom]) and an underlying without lower-case
    letters. *)
Theorem priceRequest_sane (s : PricerState) (legs : list RequestLeg.t) :
  let req := priceRequest s legs in
  is_number (PriceRequest.stock_ref req) = true ∧
  is_number (PriceRequest.delta req) = true ∧
  is_number (PriceRequest.price req) = true ∧
  JS.truthy (PriceRequest.quantity req) = true ∧
  JS.nonempty (PriceRequest.quote_side req) = true ∧
  JS.nonempty (PriceRequest.structure_name req) = true ∧
  (∀ c, In c (list_ascii_of_string (PriceRequest.underlying req)) →
        ((97 <=? N_of_ascii c) && (N_of_ascii c <=? 122))%N = false) ∧
  PriceRequest.legs req = legs.
Proof.
  cbv zeta. unfold priceRequest.
  cbn [PriceRequest.stock_ref PriceRequest.delta PriceRequest.price
       PriceRequest.quantity PriceRequest.quote_side
       PriceRequest.structure_name PriceRequest.underlying PriceRequest.legs].
  split; [by apply num_or_number|]. split; [by apply num_or_number|].
  split; [by apply num_or_number|]. split.
  { unfold num_or. destruct (JS.truthy (JS.parseInt _)) eqn:Hq; [done|].
    by vm_compute. }
  split; [by apply str_or_nonempty|]. split.
  { unfold JS.replace_char. rewrite nonempty_map_chars. by apply str_or_nonempty. }
  split; [|done]. intros c. apply toUpperCase_no_lower.
Qed.

End RequestFacts.

(** ** Expiry and option type of a submitted leg *)
Section ExpiryFacts.
Import PricerStore Format Fixtures.

Lemma monthMap_entries : monthMap = list_to_map month_entries.
Proof. reflexivity. Qed.

Lemma substring_all (v : string) : substring 0 (String.length v) v = v.
Proof. induction v as [|c v IH]; simpl; [done|]. by rewrite IH. Qed.

Lemma slice_month (c1 c2 c3 : ascii) (rest : string) :
  let v := String c1 (String c2 (String c3 rest)) in
  JS.slice_to 3 v = String c1 (String c2 (String c3 "")) ∧
  JS.slice_from 3 v = rest.
Proof.
  cbv zeta. unfold JS.slice_to, JS.slice_from. split.
  - by destruct rest.
  - cbn [String.length Nat.sub substring]. rewrite Nat.sub_0_r.
    apply substring_all.
Qed.

Lemma digit_cases (c : ascii) :
  is_digit c = true →
  c ∈ ["0"; "1"; "2"; "3"; "4"; "5"; "6"; "7"; "8"; "9"]%char.
Proof.
  destruct c as [[] [] [] [] [] [] [] []]; try discriminate; intros _;
    repeat (first [by left | right]).
Qed.

Lemma year_of_suffix (a b : ascii) :
  is_digit a = true → is_digit b = true →
  JS.to_string (JS.add (JS.of_Z 2000) (JS.parseInt (String a (String b "")))) =
    String "2" (String "0" (String a (String b ""))).
Proof.
  intros Ha%digit_cases Hb%digit_cases.
  repeat (apply elem_of_cons in Ha as [->|Ha]);
    try (by apply elem_of_nil in Ha);
    repeat (apply elem_of_cons in Hb as [->|Hb]);
    try (by apply elem_of_nil in Hb); by vm_compute.
Qed.

Lemma trim_month_year (c1 c2 c3 a b : ascii) :
  Ascii.is_space c1 = false → is_digit b = true →
  JS.trim (String c1 (String c2 (String c3 (String a (String b ""))))) =
    String c1 (String c2 (String c3 (String a (String b "")))).
Proof.
  intros H1 Hb. unfold JS.trim. cbn [JS.trimStart]. rewrite H1.
  assert (Hsp : Ascii.is_space b = false).
  { destruct b as [[] [] [] [] [] [] [] []]; try discriminate Hb; done. }
  unfold String.rev. cbn [String.rev_app JS.trimStart]. by rewrite Hsp.
Qed.

Lemma legOfRow_cells (row : LegRow.t) (leg : RequestLeg.t) :
  legOfRow row = Some leg →
  expiryDate (JS.trim (LegRow.expiry row)) = Some (RequestLeg.expiry leg) ∧
  RequestLeg.strike leg = to_number (LegRow.strike row) ∧
  JS.truthy (RequestLeg.strike leg) = true ∧
  RequestLeg.option_type leg =
    (if bool_decide (JS.trim (LegRow.type row) = "C") then "call" else "put").
Proof.
  unfold legOfRow, expiryDate. intros H.
  destruct (JS.truthy (to_number (LegRow.strike row))) eqn:Hk;
    [|by rewrite orb_true_r in H].
  destruct (negb _ || negb true || negb _ || negb _); [done|].
  destruct (monthMap !! _) as [month|]; [|done].
  destruct (negb _ || negb _); [done|].
  injection H as <-.
  by cbn [RequestLeg.expiry RequestLeg.strike RequestLeg.option_type].
Qed.

(** X6. The expiry cell of a submitted leg is converted as written in the
    loop of [repriceFromTable]: an English three-letter month of the table
    followed by a two-digit year [yy] becomes [20yy-mm-16]; a cell whose
    first three characters are not such a month (the table is case
    sensitive), or that has nothing after them, makes the row be skipped.
    The leg is sent as a call exactly when the trimmed type cell is the
    capital letter C, and as a put for any other type. *)
Theorem legOfRow_expiry_and_type (row : LegRow.t) :
  (∀ leg, legOfRow row = Some leg →
     expiryDate (JS.trim (LegRow.expiry row)) = Some (RequestLeg.expiry leg) ∧
     (RequestLeg.option_type leg = "call" ↔ JS.trim (LegRow.type row) = "C") ∧
     (RequestLeg.option_type leg = "put" ↔ JS.trim (LegRow.type row) ≠ "C")) ∧
  (expiryDate (JS.trim (LegRow.expiry row)) = None → legOfRow row = None) ∧
  (∀ m mm a b, (m, mm) ∈ month_entries →
     is_digit a = true → is_digit b = true →
     let yy := String a (String b "") in
     JS.trim (m +:+ yy) = m +:+ yy ∧
     expiryDate (m +:+ yy) = Some ("20" +:+ yy +:+ "-" +:+ mm +:+ "-16") ∧
     expiryDate m = None) ∧
  (∀ v, monthMap !! JS.slice_to 3 v = None → expiryDate v = None).
Proof.
  split; [|split; [|split]].
  - intros leg Hleg.
    destruct (legOfRow_cells row leg Hleg) as (Hexp & _ & _ & Hty).
    split; [exact Hexp|]. rewrite Hty. case_bool_decide; split; done.
  - intros Hnone. unfold legOfRow. unfold expiryDate in Hnone.
    destruct (negb _ || negb _ || negb _ || negb _); [done|].
    destruct (monthMap !! _) as [month|]; [|done].
    by destruct (negb _ || negb _).
  - intros m mm a b Hm Ha Hb. cbv zeta.
    unfold month_entries in Hm.
    repeat (apply elem_of_cons in Hm as [[= -> ->]|Hm];
      [ split; [by apply trim_month_year|];
        split; [|by vm_compute];
        unfold expiryDate;
        match goal with
        | |- context [String ?c1 (String ?c2 (String ?c3 "")) +:+ ?r] =>
            change (String c1 (String c2 (String c3 "")) +:+ r)
              with (String c1 (String c2 (String c3 r)));
            destruct (slice_month c1 c2 c3 r) as [-> ->]
        end;
        rewrite monthMap_entries; cbn [JS.nonempty negb orb];
        match goal with
        | |- context [list_to_map month_entries !! ?k] =>
            let v := eval vm_compute in (list_to_map (M := gmap string string) month_entries !! k) in
            change (list_to_map month_entries !! k) with v
        end;
        cbn [JS.nonempty negb orb]; rewrite (year_of_suffix a b Ha Hb);
        reflexivity
      |]).
    by apply elem_of_nil in Hm.
  - intros v Hv. unfold expiryDate. by rewrite Hv.
Qed.

End ExpiryFacts.

Section ExpiryExamples.
Import PricerStore Format Fixtures.

Lemma legOfRow_expiry_and_type_witness :
  expiryDate "Jun26" = Some "2026-06-16" ∧
  expiryDate "Jun" = None ∧
  expiryDate "jun26" = None.
Proof.
  destruct (legOfRow_expiry_and_type (emptyRow (JS.of_Z 1)))
    as (_ & _ & Hfamily & Hunknown).
  destruct (Hfamily "Jun" "06" "2"%char "6"%char) as (_ & Hdate & Hbare).
  - unfold month_entries. do 5 right. left.
  - reflexivity.
  - reflexivity.
  - split; [exact Hdate|]. split; [exact Hbare|].
    apply Hunknown. by vm_compute.
Defined.

End ExpiryExamples.

(** ** The table and the grid *)
Section GridFacts.
Import PricerStore PricingGrid Fixtures.

Lemma find_structure_none (rows : list LegRow.t) :
  Forall (λ r, LegRow.leg r ≠ "Structure") rows → find is_structure rows = None.
Proof.
  induction rows as [|r rows IH]; intros Hall; [done|].
  inversion_clear Hall as [|? ? Hr Hrows]. cbn [find]. unfold is_structure at 1.
  rewrite bool_decide_eq_false_2 by done. by apply IH.
Qed.

Lemma find_structure_app (rows rest : list LegRow.t) :
  Forall (λ r, LegRow.leg r ≠ "Structure") rows →
  find is_structure (rows ++ rest) = find is_structure rest.
Proof.
  induction rows as [|r rows IH]; intros Hall; [done|].
  inversion_clear Hall as [|? ? Hr Hrows]. cbn [app find]. unfold is_structure at 1.
  rewrite bool_decide_eq_false_2 by done. by apply IH.
Qed.

Lemma shape_prefix (rows : list LegRow.t) (r : LegRow.t) :
  table_shape (rows ++ [r]) → Forall (λ r, LegRow.leg r ≠ "Structure") rows.
Proof.
  intros Hshape. apply Forall_lookup_2. intros i r' Hi Hr'.
  pose proof (lookup_lt_Some _ _ _ Hi) as Hlt.
  specialize (Hshape i r' (lookup_app_l_Some _ _ _ _ Hi) Hr').
  rewrite length_app in Hshape. simpl in Hshape. lia.
Qed.

(** A table of the shape is the leg rows followed by the structure row. *)
Lemma shape_split (rows : list LegRow.t) :
  table_shape rows →
  (leg_rows rows ++ option_list (find is_structure rows))%list = rows.
Proof.
  intros Hshape.
  destruct (decide (rows = [])) as [->|Hne]; [done|].
  destruct (exists_last Hne) as (l & a & ->).
  pose proof (shape_prefix l a Hshape) as Hl.
  unfold leg_rows. rewrite list.filter_app, (find_structure_app l [a] Hl).
  fold (leg_rows l). rewrite (filter_legs_only l Hl).
  cbn [find]. unfold is_structure.
  destruct (decide (LegRow.leg a = "Structure")) as [Ha|Ha].
  - rewrite bool_decide_eq_true_2 by done.
    rewrite list.filter_cons_False by (intros ?; done).
    by rewrite list.filter_nil, app_nil_r.
  - rewrite bool_decide_eq_false_2 by done.
    rewrite list.filter_cons_True by done.
    by rewrite list.filter_nil, app_nil_r.
Qed.

(** X7. A price response whose table already has the shape (at most one
    structure row, in last place) is installed row for row; in any case
    the table after [applyPriceResponse] is the leg rows of the response
    followed by its first structure row, so it is never longer than the
    response table. *)
Theorem applyPriceResponse_exact (res : PriceResponse.t) (s : PricerState) :
  tableData (applyPriceResponse res s) =
    (leg_rows (PriceResponse.table_data res) ++
     option_list (find is_structure (PriceResponse.table_data res)))%list ∧
  (table_shape (PriceResponse.table_data res) →
     tableData (applyPriceResponse res s) = PriceResponse.table_data res) ∧
  (length (tableData (applyPriceResponse res s)) ≤
     length (PriceResponse.table_data res))%nat.
Proof.
  assert (Htable : tableData (applyPriceResponse res s) =
    (leg_rows (PriceResponse.table_data res) ++
     option_list (find is_structure (PriceResponse.table_data res)))%list).
  { unfold applyPriceResponse.
    cbn [tableData set_currentStructure set_brokerQuote set_header set_tableData].
    destruct (find is_structure _); [done|]. by rewrite app_nil_r. }
  split; [exact Htable|]. split.
  - intros Hshape. rewrite Htable. by apply shape_split.
  - rewrite Htable, length_app.
    set (rows := PriceResponse.table_data res).
    destruct (find is_structure rows) as [r|] eqn:Hfind; cbn [option_list length].
    + (* the structure row is one of the rows that the filter removes *)
      apply find_some in Hfind as [Hin Hr]. apply bool_decide_eq_true in Hr.
      apply list_elem_of_In, list_elem_of_split in Hin as (l1 & l2 & Hrows).
      unfold leg_rows. rewrite Hrows, list.filter_app.
      rewrite list.filter_cons_False by (intros ?; done).
      rewrite !length_app. cbn [length].
      pose proof (list.length_filter (λ r, LegRow.leg r ≠ "Structure") l1).
      pose proof (list.length_filter (λ r, LegRow.leg r ≠ "Structure") l2). simpl. lia.
    + pose proof (list.length_filter (λ r, LegRow.leg r ≠ "Structure") rows).
      subst rows. unfold leg_rows. simpl. lia.
Qed.

(** X8. When the table has the shape, the grid shows every row of the
    table exactly once and in order: the rows it is given as [rowData]
    followed by the row it pins at the bottom are the table. After a cell
    edit, rows reported by the grid that are leg rows are stored ahead of
    the structure row, and the table keeps the shape whatever the reprice
    answers. *)
Theorem grid_shows_table (api_priceFromTable : PriceRequest.t → outcome PriceResponse.t)
    (tableData0 : list LegRow.t) :
  (table_shape tableData0 →
     (legRows tableData0 ++ structureRow tableData0)%list = tableData0) ∧
  (length (structureRow tableData0) ≤ 1)%nat ∧
  (∀ nodes s,
     Forall (λ r, LegRow.leg r ≠ "Structure") nodes →
     table_shape (tableData (onCellValueChanged api_priceFromTable nodes s))).
Proof.
  split; [|split].
  - intros Hshape. rewrite <- (shape_split tableData0 Hshape) at 3.
    unfold legRows, structureRow, leg_rows. by destruct (find is_structure _).
  - unfold structureRow. destruct (find is_structure _); simpl; lia.
  - intros nodes s Hnodes. unfold onCellValueChanged. cbv zeta.
    apply repriceFromTable_shape. cbn [tableData set_tableData].
    unfold structureRow. destruct (find is_structure _).
    + by apply shape_pinned.
    + rewrite app_nil_r. by apply shape_legs.
Qed.

End GridFacts.

Section GridExamples.
Import PricerStore PricingGrid Fixtures.

Lemma applyPriceResponse_exact_witness :
  let res := PriceResponse.mk spread_rows
               (OrderHeader.mk "AAPL" "Put Spread" (JS.of_Z 250) (JS.of_Z 251) (JS.of_Z 15))
               None spread_structure in
  tableData (applyPriceResponse res initial) = spread_rows.
Proof.
  intros res.
  apply (proj1 (proj2 (applyPriceResponse_exact res initial))).
  exact spread_rows_shape.
Defined.

Lemma grid_shows_table_witness :
  (legRows spread_rows ++ structureRow spread_rows)%list = spread_rows.
Proof.
  apply (proj1 (grid_shows_table rejecting_table spread_rows)).
  exact spread_rows_shape.
Defined.

End GridExamples.

(** ** The structure name from parse to reprice *)
Section NameFacts.
Import PricerStore Fixtures.

Variable api_parseOrder : string → outcome ParseResponse.t.
Variable api_priceStructure : ParseResponse.t → outcome PriceResponse.t.

Lemma lower_char_underscore (c : ascii) :
  c ≠ "_"%char → JS.lower_char c ≠ "_"%char.
Proof. destruct c as [[] [] [] [] [] [] [] []]; intros H; by vm_compute. Qed.

Lemma replace_back (v : string) :
  (∀ c, In c (list_ascii_of_string v) → c ≠ "_"%char) →
  JS.replace_char "_" " " (JS.replace_char " " "_" v) = v.
Proof.
  unfold JS.replace_char. induction v as [|c v IH]; intros Hv; [done|].
  cbn [JS.map_chars]. rewrite IH by (intros c' Hc'; apply Hv; by right).
  f_equal. assert (Hc : c ≠ "_"%char) by (apply Hv; by left).
  destruct (Ascii.eqb_spec c " "%char) as [->|Hsp]; [done|].
  by destruct (Ascii.eqb_spec c "_"%char).
Qed.

Lemma toLowerCase_underscore (v : string) :
  (∀ c, In c (list_ascii_of_string v) → c ≠ "_"%char) →
  ∀ c, In c (list_ascii_of_string (JS.toLowerCase v)) → c ≠ "_"%char.
Proof.
  induction v as [|a v IH]; intros Hv c; simpl; [done|].
  intros [<- | Hin].
  - apply lower_char_underscore, Hv. by left.
  - apply IH; [|done]. intros c' Hc'. apply Hv. by right.
Qed.

Lemma parseAndPrice_structureType (s : PricerState)
    (parsed : ParseResponse.t) (res : PriceResponse.t) :
  JS.trim (orderText s) ≠ "" →
  api_parseOrder (orderText s) = Resolved parsed →
  api_priceStructure parsed = Resolved res →
  let s' := parseAndPrice api_parseOrder api_priceStructure s in
  let key := JS.replace_char " " "_"
               (JS.toLowerCase (ParseResponse.structure_name parsed)) in
  structureType s' = (if in_templates key then key else "") ∧
  underlying s' = ParseResponse.underlying parsed ∧
  quoteSide s' = ParseResponse.quote_side parsed ∧
  parseError s' = "" ∧ tableError s' = "" ∧ loading s' = false ∧
  currentStructure s' = Some (PriceResponse.current_structure res) ∧
  header s' = Some (PriceResponse.header res) ∧
  brokerQuote s' = PriceResponse.broker_quote res ∧
  orderText s' = orderText s.
Proof.
  intros Hne Hparse Hprice. cbv zeta. unfold parseAndPrice. cbv zeta.
  destruct (JS.nonempty _) eqn:Hn; [|by apply nonempty_false in Hn].
  cbn [negb]. rewrite Hparse, Hprice. unfold applyPriceResponse.
  by repeat split.
Qed.

(** X9. After a successful [parseAndPrice] the structure type of the
    toolbar is the parsed structure name in lower case with underscores
    for spaces when that is a key of the template table, and empty
    otherwise. A later table reprice then sends the lower-case parsed name
    back (for a name without underscores), and sends [custom] for a name
    that was not recognised. *)
Theorem structure_name_round_trip (s : PricerState)
    (parsed : ParseResponse.t) (res : PriceResponse.t) (legs : list RequestLeg.t) :
  JS.trim (orderText s) ≠ "" →
  api_parseOrder (orderText s) = Resolved parsed →
  api_priceStructure parsed = Resolved res →
  let s' := parseAndPrice api_parseOrder api_priceStructure s in
  let name := JS.toLowerCase (ParseResponse.structure_name parsed) in
  let key := JS.replace_char " " "_" name in
  structureType s' = (if in_templates key then key else "") ∧
  (in_templates key = true →
   (∀ c, In c (list_ascii_of_string (ParseResponse.structure_name parsed)) →
         c ≠ "_"%char) →
   PriceRequest.structure_name (priceRequest s' legs) = name) ∧
  (in_templates key = false →
   PriceRequest.structure_name (priceRequest s' legs) = "custom").
Proof.
  intros Hne Hparse Hprice. cbv zeta.
  destruct (parseAndPrice_structureType s parsed res Hne Hparse Hprice)
    as (Hty & _).
  cbv zeta in Hty. split; [exact Hty|].
  unfold priceRequest. cbn [PriceRequest.structure_name]. rewrite Hty. split.
  - intros Hkey Hname. rewrite Hkey.
    set (key := JS.replace_char " " "_" _) in *.
    assert (Hnonempty : JS.nonempty key = true).
    { destruct key; [by vm_compute in Hkey | done]. }
    unfold str_or. rewrite Hnonempty. subst key.
    by apply replace_back, toLowerCase_underscore.
  - intros ->. by vm_compute.
Qed.

End NameFacts.

Section NameExamples.
Import PricerStore Fixtures.

Lemma structure_name_round_trip_witness :
  let s' := parseAndPrice resolving_parse resolving_price priced_spread in
  structureType s' = "put_spread" ∧
  PriceRequest.structure_name (priceRequest s' []) = "put spread".
Proof.
  cbv zeta.
  destruct (structure_name_round_trip resolving_parse resolving_price
              priced_spread spread_parsed spread_response [])
    as (Hty & Hname & _).
  - by vm_compute.
  - reflexivity.
  - reflexivity.
  - cbv zeta in Hty, Hname. split.
    + rewrite Hty. by vm_compute.
    + rewrite Hname; [by vm_compute | by vm_compute |].
      intros c Hc. simpl in Hc.
      repeat (destruct Hc as [<- | Hc]; [discriminate|]). destruct Hc.
Defined.

End NameExamples.

(** ** Clearing and recalling *)
Section ClearRecallFacts.
Import PricerStore AddOrderButton Fixtures.

Variable api_priceFromTable : PriceRequest.t → outcome PriceResponse.t.

(** X10. [clearAll] puts every entry of the store back to its initial
    value except the loading flag, whatever the store held. After it no
    reprice request is sent, Add Order builds no record, and clearing
    again changes nothing. *)
Theorem clearAll_resets (s : PricerState) :
  clearAll s = set_loading (loading s) initial ∧
  clearAll (clearAll s) = clearAll s ∧
  repriceFromTable_begin (clearAll s) = (clearAll s, None) ∧
  repriceFromTable api_priceFromTable (clearAll s) = clearAll s ∧
  (∀ id added_time, handleAdd id added_time (clearAll s) = None).
Proof.
  split; [reflexivity|]. split; [reflexivity|].
  destruct (repriceFromTable_blank api_priceFromTable (clearAll s))
    as [Hbegin Hall]; [by vm_compute|].
  split; [exact Hbegin|]. split; [exact Hall|]. reflexivity.
Qed.

(** X11. [recallOrder] ignores a record without a stored table. With one,
    it installs that table, clears both error messages and keeps the
    order text; the header it builds exists exactly when the record has a
    structure; and a broker quote is shown only for a stored broker price
    above zero and a structure with a mid, with edge the price minus the
    mid and the side in upper case. *)
Theorem recallOrder_builds (order : BlotterOrder.t) (s : PricerState) :
  (BlotterOrder._table_data order = None → recallOrder order s = s) ∧
  (∀ table, BlotterOrder._table_data order = Some table →
     let s' := recallOrder order s in
     tableData s' = table ∧ parseError s' = "" ∧ tableError s' = "" ∧
     orderText s' = orderText s ∧ loading s' = loading s ∧
     currentStructure s' = BlotterOrder._current_structure order ∧
     (header s' = None ↔ BlotterOrder._current_structure order = None) ∧
     (∀ q, brokerQuote s' = Some q →
        ∃ price cs mid,
          BlotterOrder._broker_price order = Some price ∧
          JS.gt0 price = true ∧
          BlotterOrder._current_structure order = Some cs ∧
          CurrentStructure.mid cs = Some mid ∧
          BrokerQuote.broker_price q = price ∧
          BrokerQuote.screen_mid q = Some mid ∧
          BrokerQuote.edge q = Some (JS.sub price mid) ∧
          BrokerQuote.quote_side q =
            JS.toUpperCase (opt_str_or (BlotterOrder._quote_side order) "bid")) ∧
     (BlotterOrder._broker_price order = None → brokerQuote s' = None)).
Proof.
  unfold recallOrder. split; [by intros ->|].
  intros table ->. cbv zeta.
  cbn [tableData parseError tableError orderText loading currentStructure
       header brokerQuote].
  repeat (split; [done|]). split; [|split].
  - unfold recalledHeader. by destruct (BlotterOrder._current_structure order).
  - intros q. unfold recalledQuote.
    destruct (BlotterOrder._broker_price order) as [price|]; [|done].
    destruct (BlotterOrder._current_structure order) as [cs|]; [|done].
    destruct (CurrentStructure.mid cs) as [mid|] eqn:Hmid; [|done].
    destruct (JS.truthy price); cbn [andb]; [|done].
    destruct (JS.gt0 price) eqn:Hpos; [|done].
    intros [= <-]. exists price, cs, mid. by repeat split.
  - unfold recalledQuote. by intros ->.
Qed.

(** X12. A record built by Add Order exists exactly when there is a
    current structure; it stores the table, the toolbar strings and the
    structure of the moment; and a stock reference, delta, broker price or
    quantity is stored only as a number that is neither zero nor NaN (it
    is left out otherwise). *)
Theorem handleAdd_stores (id added_time : string) (s : PricerState) :
  (handleAdd id added_time s = None ↔ currentStructure s = None) ∧
  (∀ order, handleAdd id added_time s = Some order →
     BlotterOrder.id order = id ∧
     BlotterOrder.added_time order = added_time ∧
     BlotterOrder.traded order = "No" ∧
     BlotterOrder._table_data order = Some (tableData s) ∧
     BlotterOrder._underlying order = Some (underlying s) ∧
     BlotterOrder._structure_type order = Some (structureType s) ∧
     BlotterOrder._quote_side order = Some (quoteSide s) ∧
     BlotterOrder._current_structure order = currentStructure s ∧
     (∀ x, BlotterOrder._stock_ref order = Some x →
        x = JS.parseFloat (stockRef s) ∧ JS.truthy x = true) ∧
     (∀ x, BlotterOrder._delta order = Some x →
        x = JS.parseFloat (delta s) ∧ JS.truthy x = true) ∧
     (∀ x, BlotterOrder._broker_price order = Some x →
        x = JS.parseFloat (brokerPrice s) ∧ JS.truthy x = true) ∧
     (∀ x, BlotterOrder._quantity order = Some x →
        x = JS.parseInt (quantity s) ∧ JS.truthy x = true)).
Proof.
  unfold handleAdd. destruct (currentStructure s) as [cs|]; [|done].
  split; [done|]. intros order [= <-].
  cbn [BlotterOrder.id BlotterOrder.added_time BlotterOrder.traded
       BlotterOrder._table_data BlotterOrder._underlying
       BlotterOrder._structure_type BlotterOrder._quote_side
       BlotterOrder._current_structure BlotterOrder._stock_ref
       BlotterOrder._delta BlotterOrder._broker_price BlotterOrder._quantity].
  repeat (split; [done|]).
  unfold num_or_undefined.
  repeat split;
    match goal with
    | H : (if JS.truthy ?v then _ else _) = Some _ |- _ =>
        destruct (JS.truthy v) eqn:?; [by injection H as <- | discriminate H]
    end.
Qed.

End ClearRecallFacts.

Section ClearRecallExamples.
Import PricerStore AddOrderButton Fixtures.

Lemma recallOrder_builds_witness :
  let s' := recallOrder misordered_order initial in
  parseError s' = "" ∧
  ∃ q, brokerQuote s' = Some q ∧ BrokerQuote.quote_side q = "BID" ∧
       BrokerQuote.edge q = Some (JS.of_decimal false 45 (-1)).
Proof.
  cbv zeta.
  destruct (recallOrder_builds misordered_order initial) as [_ Hsome].
  destruct (Hsome _ eq_refl) as (_ & Herr & _ & _ & _ & _ & _ & Hquote & _).
  cbv zeta in Hquote. split; [exact Herr|].
  destruct (brokerQuote (recallOrder misordered_order initial)) as [q|] eqn:Hq;
    [|by vm_compute in Hq].
  destruct (Hquote q eq_refl)
    as (price & cs & mid & Hprice & _ & Hcs & Hmid & _ & _ & Hedge & Hside).
  exists q. split; [done|]. split.
  - rewrite Hside. by vm_compute.
  - rewrite Hedge. revert Hprice Hcs Hmid. unfold misordered_order.
    cbn [BlotterOrder._broker_price BlotterOrder._current_structure].
    intros [= <-] [= <-]. unfold spread_structure. cbn [CurrentStructure.mid].
    intros [= <-]. by vm_compute.
Defined.

Lemma handleAdd_stores_witness :
  ∃ order, handleAdd "7f3a" "2026-03-02T10:15:00" zero_tie_spread = Some order ∧
    BlotterOrder._stock_ref order = None ∧
    BlotterOrder._table_data order = Some spread_rows.
Proof.
  destruct (handleAdd "7f3a" "2026-03-02T10:15:00" zero_tie_spread)
    as [order|] eqn:Horder; [|by vm_compute in Horder].
  exists order. split; [done|].
  destruct (handleAdd_stores "7f3a" "2026-03-02T10:15:00" zero_tie_spread)
    as [_ Hsome].
  destruct (Hsome order Horder)
    as (_ & _ & _ & Htable & _ & _ & _ & _ & Href & _).
  split; [|exact Htable].
  destruct (BlotterOrder._stock_ref order) as [x|]; [|done].
  destruct (Href x eq_refl) as [-> Htruthy]. by vm_compute in Htruthy.
Defined.

End ClearRecallExamples.

(** ** Identifiers and timestamps of blotter records *)
Section IdFacts.
Import AddOrderButton Format Fixtures.

Lemma toString16_digit (n : N) :
  (n < 16)%N →
  ∃ c, toString16 n = String c "" ∧ is_hex c = true ∧
       ((8 ≤ n)%N → (n < 12)%N → is_variant c = true).
Proof.
  intros Hn.
  assert (Hcases : (n = 0 ∨ n = 1 ∨ n = 2 ∨ n = 3 ∨ n = 4 ∨ n = 5 ∨ n = 6 ∨
                    n = 7 ∨ n = 8 ∨ n = 9 ∨ n = 10 ∨ n = 11 ∨ n = 12 ∨
                    n = 13 ∨ n = 14 ∨ n = 15)%N) by lia.
  repeat (destruct Hcases as [->|Hcases];
    [eexists; split; [by vm_compute|]; split; [by vm_compute|];
     intros H1 H2; first [by vm_compute | lia]|]).
  subst n. eexists. split; [by vm_compute|]. split; [by vm_compute|]. lia.
Qed.

Lemma variant_range (r : N) : (8 ≤ N.lor (N.land r 3) 8 < 12)%N.
Proof.
  assert (Hland : (N.land r 3 < 4)%N).
  { change 3%N with (N.ones 2). rewrite N.land_ones. by apply N.mod_lt. }
  assert (Hcases : (N.land r 3 = 0 ∨ N.land r 3 = 1 ∨ N.land r 3 = 2 ∨
                    N.land r 3 = 3)%N) by lia.
  destruct Hcases as [->|[->|[->| ->]]]; by vm_compute.
Qed.

Lemma fill_id_follows (template : string) (random : nat → N) :
  (∀ k, (random k < 16)%N) →
  ∀ k, follows template (fill_id template random k) = true ∧
       String.length (fill_id template random k) = String.length template.
Proof.
  intros Hrandom. induction template as [|p template IH]; intros k; [done|].
  cbn [fill_id follows]. destruct (IH k) as [IHk IHlen].
  destruct (IH (S k)) as [IHSk IHSlen].
  destruct (Ascii.eqb p "x") eqn:Hx.
  - destruct (toString16_digit (random k) (Hrandom k)) as (c & -> & Hc & _).
    change (String c "" +:+ ?r) with (String c r). cbn [follows String.length].
    by rewrite ?Hx, Hc, IHSk, IHSlen.
  - destruct (Ascii.eqb p "y") eqn:Hy.
    + pose proof (variant_range (random k)) as [Hlo Hhi].
      destruct (toString16_digit (N.lor (N.land (random k) 3) 8))
        as (c & -> & _ & Hc); [lia|].
      change (String c "" +:+ ?r) with (String c r). cbn [follows String.length].
      by rewrite ?Hx, ?Hy, (Hc Hlo Hhi), IHSk, IHSlen.
    + cbn [follows String.length].
      by rewrite ?Hx, ?Hy, Ascii.eqb_refl, IHk, IHlen.
Qed.

(** X13. Whatever digits the random source yields (each
    [(Math.random() * 16) | 0] lies between 0 and 15), [genId] returns a
    lower-case version 4 UUID: 36 characters, hyphens after the 8th, 13th,
    18th and 23rd, the digit 4 in front of the third group, one of 8, 9,
    a, b in front of the fourth, hexadecimal digits elsewhere. *)
Theorem genId_uuid (random : nat → N) :
  (∀ k, (random k < 16)%N) →
  is_uuid_v4 (genId random) = true ∧ String.length (genId random) = 36%nat.
Proof.
  intros Hrandom. unfold is_uuid_v4, genId.
  exact (fill_id_follows _ random Hrandom 0%nat).
Qed.

Lemma genId_uuid_witness :
  is_uuid_v4 (genId counting) = true ∧ String.length (genId counting) = 36%nat.
Proof.
  apply genId_uuid. intros k. unfold counting. by apply N.mod_lt.
Defined.

End IdFacts.

(** ** The Time column *)
Section TimeFacts.
Import AddOrderButton BlotterGrid Format Fixtures.

Lemma lacks_app (c : ascii) (a b : string) :
  lacks c (a +:+ b) = lacks c a && lacks c b.
Proof. induction a as [|x a IH]; simpl; [done|]. by rewrite IH, andb_assoc. Qed.

Lemma lacks_digits (s : string) : all_digits s = true → lacks "T" s = true.
Proof.
  induction s as [|x s IH]; simpl; [done|].
  intros [Hx Hs]%andb_true_iff. rewrite (IH Hs), andb_true_r.
  destruct x as [[] [] [] [] [] [] [] []]; try discriminate Hx; done.
Qed.

Lemma lacks_zeros (n : nat) : lacks "T" (JS.zeros n) = true.
Proof. apply lacks_digits, all_digits_zeros. Qed.

Lemma lacks_substring (c : ascii) (s : string) : ∀ i j,
  lacks c s = true → lacks c (substring i j s) = true.
Proof.
  induction s as [|x s IH]; intros [|i] [|j] Hs; simpl in *; try done.
  - apply andb_true_iff in Hs as [-> Hs]. by apply IH.
  - apply andb_true_iff in Hs as [_ Hs]. by apply IH.
  - apply andb_true_iff in Hs as [_ Hs]. by apply IH.
Qed.

Lemma lacks_exponent_part (n : Z) : lacks "T" (JS.exponent_part n) = true.
Proof.
  unfold JS.exponent_part. cbv zeta.
  rewrite !lacks_app, (lacks_digits _ (all_digits_of_Z _)).
  by destruct (_ <? _)%Z.
Qed.

Lemma lacks_layout (n : Z) (ds : string) :
  all_digits ds = true → lacks "T" (JS.layout n ds) = true.
Proof.
  intros Hds%lacks_digits. unfold JS.layout. cbv zeta.
  repeat match goal with |- context [if ?c then _ else _] => destruct c end;
    rewrite ?lacks_app, ?lacks_zeros, ?lacks_exponent_part, ?Hds,
            ?(lacks_substring _ _ _ _ Hds); done.
Qed.

Lemma lacks_to_string (x : JS.number) : lacks "T" (JS.to_string x) = true.
Proof.
  destruct x as [a|[]| |sg m e]; try done.
  unfold JS.to_string. rewrite lacks_app. apply andb_true_iff. split.
  - by destruct sg.
  - unfold JS.to_string_pos. destruct (JS.exact m e) as [num den].
    destruct (JS.shortest _ _ _ _ _) as [k s].
    destruct (_ =? _)%Z; apply lacks_layout; [done | apply all_digits_of_Z].
Qed.

Lemma lacks_pad (n : JS.number) : lacks "T" (pad n) = true.
Proof. unfold pad. cbv zeta. by rewrite lacks_app, lacks_zeros, lacks_to_string. Qed.

Lemma nonempty_pad (n : JS.number) : JS.nonempty (pad n) = true.
Proof. unfold pad. cbv zeta. apply nonempty_app_r, nonempty_to_string. Qed.

Lemma split_on_lacks (c : ascii) (a : string) :
  lacks c a = true → split_on c a = [a].
Proof.
  induction a as [|x a IH]; simpl; [done|].
  intros [Hx Ha]%andb_true_iff. apply negb_true_iff in Hx.
  by rewrite Hx, (IH Ha).
Qed.

Lemma split_on_once (c : ascii) (a b : string) :
  lacks c a = true → lacks c b = true →
  split_on c (a +:+ String c b) = [a; b].
Proof.
  intros Ha Hb. induction a as [|x a IH].
  - change ("" +:+ String c b) with (String c b). cbn [split_on].
    by rewrite Ascii.eqb_refl, (split_on_lacks c b Hb).
  - simpl in Ha. apply andb_true_iff in Ha as [Hx Ha].
    apply negb_true_iff in Hx.
    change (String x a +:+ String c b) with (String x (a +:+ String c b)).
    cbn [split_on]. by rewrite Hx, (IH Ha).
Qed.

Lemma app_assoc_string (a b c : string) : (a +:+ b) +:+ c = a +:+ (b +:+ c).
Proof.
  induction a as [|x a IH]; [done|].
  change (String x ((a +:+ b) +:+ c) = String x (a +:+ (b +:+ c))).
  by rewrite IH.
Qed.

Lemma timeFormatter_stamp (day time : string) :
  lacks "T" day = true → lacks "T" time = true → JS.nonempty time = true →
  timeFormatter (day +:+ "T" +:+ time) = time.
Proof.
  intros Hday Htime Hne. unfold timeFormatter.
  rewrite nonempty_app_r by done. cbn [negb]. cbv zeta.
  change ("T" +:+ time) with (String "T" time).
  rewrite (split_on_once "T" day time Hday Htime). cbn [lookup list_lookup].
  by rewrite Hne.
Qed.

(** X14. The Time column shows the part of a timestamp after its [T]: for
    a timestamp written by [localISOTimestamp], whatever the date, that is
    the hours, minutes and seconds, each padded to two characters and
    separated by colons. A value without a [T] (a legacy [HH:MM]) is shown
    as it is, and an empty value as the empty string. *)
Theorem timeFormatter_local (d : LocalDate) :
  timeFormatter (localISOTimestamp d) =
    pad (hours d) +:+ ":" +:+ pad (minutes d) +:+ ":" +:+ pad (seconds d) ∧
  (∀ v, lacks "T" v = true → timeFormatter v = v) ∧
  timeFormatter "" = "".
Proof.
  split; [|split; [|reflexivity]].
  - unfold localISOTimestamp.
    set (time := pad (hours d) +:+ ":" +:+ pad (minutes d) +:+ ":" +:+ pad (seconds d)).
    set (day := JS.to_string (fullYear d) +:+ "-" +:+
                pad (JS.add (month d) (JS.of_Z 1)) +:+ "-" +:+ pad (date d)).
    replace (JS.to_string (fullYear d) +:+ "-" +:+
             pad (JS.add (month d) (JS.of_Z 1)) +:+ "-" +:+ pad (date d) +:+
             "T" +:+ time)
      with (day +:+ "T" +:+ time)
      by (subst day; by rewrite !app_assoc_string).
    apply timeFormatter_stamp.
    + subst day. by rewrite !lacks_app, !lacks_pad, lacks_to_string.
    + subst time. by rewrite !lacks_app, !lacks_pad.
    + subst time. apply nonempty_app_l, nonempty_pad.
  - intros v Hv. unfold timeFormatter.
    destruct v as [|x v]; [done|]. cbn [JS.nonempty negb]. cbv zeta.
    by rewrite (split_on_lacks "T" _ Hv).
Qed.

Lemma timeFormatter_local_witness :
  localISOTimestamp march_second = "2026-03-02T10:15:07" ∧
  timeFormatter (localISOTimestamp march_second) = "10:15:07" ∧
  timeFormatter "10:15" = "10:15".
Proof.
  split; [by vm_compute|]. split.
  - rewrite (proj1 (timeFormatter_local march_second)). by vm_compute.
  - apply (proj1 (proj2 (timeFormatter_local march_second))). by vm_compute.
Defined.

(** The blotter grid is never lower than 200 and never higher than
    600 pixels: it stays at 200 up to three orders, grows by 42 per order
    from there and stays at 600 from thirteen orders on. *)
Theorem gridHeight_bounds (n : nat) :
  (200 ≤ gridHeight n ≤ 600)%Z ∧
  (n ≤ 3 → gridHeight n = 200%Z)%nat ∧
  (4 ≤ n ≤ 12 → gridHeight n = (Z.of_nat n * 42 + 56)%Z)%nat ∧
  (13 ≤ n → gridHeight n = 600%Z)%nat ∧
  (gridHeight n ≤ gridHeight (S n))%Z.
Proof. unfold gridHeight. repeat split; lia. Qed.

Lemma gridHeight_bounds_witness :
  gridHeight 3 = 200%Z ∧ gridHeight 5 = 266%Z ∧ gridHeight 40 = 600%Z.
Proof.
  split; [|split].
  - apply (gridHeight_bounds 3). lia.
  - rewrite (proj1 (proj2 (proj2 (gridHeight_bounds 5)))); [reflexivity | lia].
  - apply (gridHeight_bounds 40). lia.
Defined.

End TimeFacts.

(** ** Sets in insertion order *)
Section SetFacts.
Import JSSet.
Context {A : Type} `{EqDecision A}.

Lemma elem_of_add (x y : A) (s : list A) : y ∈ add x s ↔ y = x ∨ y ∈ s.
Proof.
  unfold add, has. case_bool_decide as Hx.
  - split; [by right|]. by intros [->|].
  - rewrite elem_of_app, list_elem_of_singleton. tauto.
Qed.

Lemma elem_of_delete (x y : A) (s : list A) : y ∈ delete x s ↔ y ≠ x ∧ y ∈ s.
Proof. unfold delete. by rewrite list_elem_of_filter. Qed.

Lemma NoDup_add (x : A) (s : list A) : NoDup s → NoDup (add x s).
Proof.
  intros Hs. unfold add, has. case_bool_decide as Hx; [done|].
  apply list.NoDup_app. split; [done|]. split; [|apply list.NoDup_singleton].
  intros y Hy ->%list_elem_of_singleton. done.
Qed.

Lemma NoDup_delete (x : A) (s : list A) : NoDup s → NoDup (delete x s).
Proof. apply list.NoDup_filter. Qed.

Lemma delete_absent (x : A) (s : list A) : x ∉ s → delete x s = s.
Proof.
  intros Hx. unfold delete. induction s as [|y s IH]; [done|].
  apply not_elem_of_cons in Hx as [Hy Hs].
  rewrite list.filter_cons_True by done. by rewrite (IH Hs).
Qed.

Lemma delete_add (x : A) (s : list A) : x ∉ s → delete x (add x s) = s.
Proof.
  intros Hx. unfold add, has. rewrite bool_decide_eq_false_2 by done.
  unfold delete. rewrite list.filter_app.
  fold (delete x s). rewrite (delete_absent x s Hx).
  rewrite list.filter_cons_False by (intros H; by apply H).
  by rewrite list.filter_nil, app_nil_r.
Qed.

Lemma fill_Set_disjoint (l acc : list A) :
  NoDup l → (∀ x, x ∈ l → x ∉ acc) →
  foldl (λ s x, add x s) acc l = (acc ++ l)%list.
Proof.
  revert acc. induction l as [|x l IH]; intros acc Hl Hacc; cbn [foldl].
  - by rewrite app_nil_r.
  - apply list.NoDup_cons in Hl as [Hx Hl].
    unfold add at 2, has. rewrite bool_decide_eq_false_2
      by (apply Hacc; left).
    rewrite IH; [by rewrite <- app_assoc| done |].
    intros y Hy [Hin | ->%list_elem_of_singleton]%elem_of_app; [|done].
    apply (Hacc y); [by right | done].
Qed.

Lemma new_Set_NoDup_id (l : list A) : NoDup l → new_Set l = l.
Proof.
  intros Hl. unfold new_Set. rewrite fill_Set_disjoint; [done..|].
  intros x _. apply not_elem_of_nil.
Qed.

Lemma elem_of_fill_Set (l acc : list A) (y : A) :
  y ∈ foldl (λ s x, add x s) acc l ↔ y ∈ acc ∨ y ∈ l.
Proof.
  revert acc. induction l as [|x l IH]; intros acc; cbn [foldl].
  - rewrite elem_of_nil. tauto.
  - rewrite IH, elem_of_add, elem_of_cons. tauto.
Qed.

Lemma elem_of_new_Set (l : list A) (y : A) : y ∈ new_Set l ↔ y ∈ l.
Proof. unfold new_Set. rewrite elem_of_fill_Set, elem_of_nil. tauto. Qed.

Lemma NoDup_fill_Set (l acc : list A) :
  NoDup acc → NoDup (foldl (λ s x, add x s) acc l).
Proof.
  revert acc. induction l as [|x l IH]; intros acc Hacc; cbn [foldl]; [done|].
  by apply IH, NoDup_add.
Qed.

Lemma NoDup_new_Set (l : list A) : NoDup (new_Set l).
Proof. apply NoDup_fill_Set, base.NoDup_nil_2. Qed.

Lemma length_add (x : A) (s : list A) : (length (add x s) ≤ S (length s))%nat.
Proof.
  unfold add. destruct (has x s); [lia|]. rewrite length_app. simpl. lia.
Qed.

Lemma length_fill_Set (l acc : list A) :
  (length (foldl (λ s x, add x s) acc l) ≤ length acc + length l)%nat.
Proof.
  revert acc. induction l as [|x l IH]; intros acc; cbn [foldl length]; [lia|].
  pose proof (IH (add x acc)). pose proof (length_add x acc). lia.
Qed.

Lemma length_fill_Set_full (l acc : list A) :
  length (foldl (λ s x, add x s) acc l) = (length acc + length l)%nat →
  NoDup l ∧ ∀ x, x ∈ l → x ∉ acc.
Proof.
  revert acc. induction l as [|x l IH]; intros acc; cbn [foldl length].
  - intros _. split; [apply base.NoDup_nil_2|]. by intros x ?%elem_of_nil.
  - intros Hlen. unfold add at 2 in Hlen. unfold has in Hlen.
    case_bool_decide as Hx.
    + pose proof (length_fill_Set l acc). lia.
    + destruct (IH (acc ++ [x])%list) as [Hl Hdis].
      { rewrite Hlen, length_app. simpl. lia. }
      split.
      * apply list.NoDup_cons. split; [|done].
        intros Hin. apply (Hdis x Hin), elem_of_app. right. by left.
      * intros y [->|Hy]%elem_of_cons; [done|].
        intros Hacc. apply (Hdis y Hy), elem_of_app. by left.
Qed.

Lemma length_new_Set (l : list A) :
  (length (new_Set l) ≤ length l)%nat ∧
  (length (new_Set l) = length l ↔ NoDup l).
Proof.
  split; [apply (length_fill_Set l [])|]. split.
  - intros Hlen. by apply (length_fill_Set_full l []).
  - intros Hl. by rewrite new_Set_NoDup_id.
Qed.

End SetFacts.

(** ** The blotter's columns and selection *)
Section BlotterFacts.
Import BlotterStore BlotterColumns BlotterFixtures.

Lemma elem_of_toggleColumn (colId x : string) (s : BlotterState) :
  x ∈ visibleColumns (toggleColumn colId s) ↔
  (x ≠ colId ∧ x ∈ visibleColumns s) ∨ (x = colId ∧ colId ∉ visibleColumns s).
Proof.
  unfold toggleColumn. cbn [visibleColumns]. case_bool_decide as Hc.
  - rewrite list_elem_of_filter. tauto.
  - rewrite elem_of_app, list_elem_of_singleton.
    destruct (decide (x = colId)) as [->|]; tauto.
Qed.

(** X15. Ticking a column in the column menu flips that column and no
    other. The grid shows the visible columns in the fixed order of
    [ALL_COLUMNS], so ticking the same column twice gives back exactly the
    columns shown before, and ticking two columns gives the same grid in
    either order. A list of visible columns without repetition stays so. *)
Theorem toggleColumn_grid (a b : string) (s : BlotterState) :
  (checked (visibleColumns (toggleColumn a s)) a =
     negb (checked (visibleColumns s) a)) ∧
  (a ≠ b → checked (visibleColumns (toggleColumn a s)) b =
           checked (visibleColumns s) b) ∧
  columnDefs (visibleColumns (toggleColumn a (toggleColumn a s))) =
    columnDefs (visibleColumns s) ∧
  columnDefs (visibleColumns (toggleColumn a (toggleColumn b s))) =
    columnDefs (visibleColumns (toggleColumn b (toggleColumn a s))) ∧
  (NoDup (visibleColumns s) → NoDup (visibleColumns (toggleColumn a s))) ∧
  orders (toggleColumn a s) = orders s ∧
  selectedIds (toggleColumn a s) = selectedIds s.
Proof.
  split; [|split; [|split; [|split; [|split; [|done]]]]].
  - unfold checked.
    destruct (decide (a ∈ visibleColumns s)) as [Ha|Ha].
    + rewrite (bool_decide_eq_true_2 _ Ha). apply bool_decide_eq_false_2.
      rewrite elem_of_toggleColumn. tauto.
    + rewrite (bool_decide_eq_false_2 _ Ha). apply bool_decide_eq_true_2.
      rewrite elem_of_toggleColumn. tauto.
  - intros Hab. unfold checked. apply bool_decide_ext.
    rewrite elem_of_toggleColumn. split; [|intros ?; left; by split].
    intros [[_ ?]|[-> _]]; done.
  - unfold columnDefs. apply list_filter_iff. intros x.
    rewrite !elem_of_toggleColumn.
    destruct (decide (x = a)) as [->|]; destruct (decide (a ∈ visibleColumns s));
      tauto.
  - unfold columnDefs. apply list_filter_iff. intros x.
    rewrite !elem_of_toggleColumn.
    destruct (decide (a ∈ visibleColumns s));
      destruct (decide (b ∈ visibleColumns s));
      destruct (decide (x = a)); destruct (decide (x = b)); subst; tauto.
  - intros Hnd. unfold toggleColumn. cbn [visibleColumns].
    case_bool_decide as Hc; [by apply list.NoDup_filter|].
    apply list.NoDup_app. split; [done|]. split; [|apply list.NoDup_singleton].
    by intros y Hy ->%list_elem_of_singleton.
Qed.

Lemma toggleColumn_grid_witness :
  columnDefs (visibleColumns (toggleColumn "bid" initial)) =
    ["id"; "added_time"; "underlying"; "structure"; "mid"; "offer";
     "side"; "size"; "traded"; "traded_price"; "initiator"; "pnl"] ∧
  visibleColumns (toggleColumn "bid" (toggleColumn "bid" initial)) ≠
    visibleColumns initial ∧
  checked (visibleColumns (toggleColumn "bid" initial)) "mid" = true ∧
  NoDup (visibleColumns (toggleColumn "bid" initial)).
Proof.
  split; [by vm_compute|]. split; [by vm_compute|]. split.
  - rewrite (proj1 (proj2 (toggleColumn_grid "bid" "mid" initial))); done.
  - apply (toggleColumn_grid "bid" "bid" initial). apply (bool_decide_unpack _); by vm_compute.
Defined.

(** X16. Clicking a row's selection box flips that order's id in the
    selection and no other. Clicking twice leaves the same ids selected;
    when the id was not selected before, the selection is again exactly
    what it was. *)
Theorem toggleSelect_flips (id : string) (s : BlotterState) :
  NoDup (selectedIds s) →
  NoDup (selectedIds (toggleSelect id s)) ∧
  (id ∈ selectedIds (toggleSelect id s) ↔ id ∉ selectedIds s) ∧
  (∀ x, x ≠ id → x ∈ selectedIds (toggleSelect id s) ↔ x ∈ selectedIds s) ∧
  (∀ x, x ∈ selectedIds (toggleSelect id (toggleSelect id s)) ↔
        x ∈ selectedIds s) ∧
  (id ∉ selectedIds s → toggleSelect id (toggleSelect id s) = s).
Proof.
  intros Hnd.
  assert (Hmem : ∀ t x, NoDup (selectedIds t) →
            x ∈ selectedIds (toggleSelect id t) ↔
            (x ≠ id ∧ x ∈ selectedIds t) ∨ (x = id ∧ id ∉ selectedIds t)).
  { intros t x Ht. unfold toggleSelect. cbn [selectedIds].
    rewrite (new_Set_NoDup_id _ Ht). unfold JSSet.has. case_bool_decide as Hc.
    - rewrite elem_of_delete. tauto.
    - rewrite elem_of_add. destruct (decide (x = id)) as [->|]; tauto. }
  assert (Hnd' : NoDup (selectedIds (toggleSelect id s))).
  { unfold toggleSelect. cbn [selectedIds]. rewrite (new_Set_NoDup_id _ Hnd).
    destruct (JSSet.has _ _); [by apply NoDup_delete | by apply NoDup_add]. }
  split; [done|]. split; [|split; [|split]].
  - rewrite (Hmem s id Hnd). tauto.
  - intros x Hx. rewrite (Hmem s x Hnd). tauto.
  - intros x. rewrite (Hmem _ x Hnd'), (Hmem s x Hnd), (Hmem s id Hnd).
    destruct (decide (x = id)) as [->|];
      destruct (decide (id ∈ selectedIds s)); tauto.
  - intros Hid. destruct s as [os vis sel]. cbn [selectedIds] in *.
    unfold toggleSelect. cbn [selectedIds orders visibleColumns].
    f_equal. rewrite (new_Set_NoDup_id sel Hnd).
    assert (Hout : JSSet.has id sel = false)
      by (by apply bool_decide_eq_false_2).
    rewrite Hout, (new_Set_NoDup_id _ (NoDup_add id sel Hnd)).
    assert (Hin : JSSet.has id (JSSet.add id sel) = true)
      by (apply bool_decide_eq_true_2, elem_of_add; by left).
    rewrite Hin. by apply delete_add.
Qed.

Lemma toggleSelect_flips_witness :
  selectedIds (toggleSelect "b2" two_orders) = ["a1"; "b2"] ∧
  toggleSelect "b2" (toggleSelect "b2" two_orders) = two_orders ∧
  selectedIds (toggleSelect "a1" (toggleSelect "a1" two_orders)) = ["a1"].
Proof.
  assert (Hnd : NoDup (selectedIds two_orders))
    by (apply (bool_decide_unpack _); by vm_compute).
  split; [by vm_compute|]. split; [|by vm_compute].
  apply (toggleSelect_flips "b2" two_orders Hnd). apply (bool_decide_unpack _); by vm_compute.
Defined.

(** X17. Select-all leaves either nothing or exactly the ids of the orders
    selected, so ids of orders that are gone never survive it. It clears
    the selection whenever as many ids are selected as there are orders,
    whichever ids they are. From any other selection it selects every
    order; a second click then clears when the orders' ids are distinct,
    and selects every order again when two orders share an id. *)
Theorem toggleSelectAll_selects (s : BlotterState) :
  NoDup (selectedIds (toggleSelectAll s)) ∧
  (∀ x, x ∈ selectedIds (toggleSelectAll s) → x ∈ BlotterOrder.id <$> orders s) ∧
  (length (selectedIds s) = length (orders s) →
     selectedIds (toggleSelectAll s) = []) ∧
  (length (selectedIds s) ≠ length (orders s) →
     (∀ x, x ∈ BlotterOrder.id <$> orders s → x ∈ selectedIds (toggleSelectAll s)) ∧
     (NoDup (BlotterOrder.id <$> orders s) →
        selectedIds (toggleSelectAll s) = BlotterOrder.id <$> orders s ∧
        selectedIds (toggleSelectAll (toggleSelectAll s)) = []) ∧
     (¬ NoDup (BlotterOrder.id <$> orders s) →
        toggleSelectAll (toggleSelectAll s) = toggleSelectAll s)).
Proof.
  set (ids := BlotterOrder.id <$> orders s).
  assert (Hids : length ids = length (orders s)) by apply length_fmap.
  pose proof (length_new_Set ids) as [Hle Hfull].
  assert (Hclear : length (selectedIds s) = length (orders s) →
            toggleSelectAll s = mkBlotter (orders s) (visibleColumns s) []).
  { intros He. unfold toggleSelectAll. by rewrite (proj2 (Nat.eqb_eq _ _) He). }
  assert (Hall : ∀ t, length (selectedIds t) ≠ length (orders t) →
            toggleSelectAll t = mkBlotter (orders t) (visibleColumns t)
                                  (JSSet.new_Set (BlotterOrder.id <$> orders t))).
  { intros t Hne. unfold toggleSelectAll.
    by rewrite (proj2 (Nat.eqb_neq _ _) Hne). }
  destruct (decide (length (selectedIds s) = length (orders s))) as [He|Hne].
  - rewrite (Hclear He). cbn [selectedIds].
    split; [apply base.NoDup_nil_2|]. split; [by intros x ?%elem_of_nil|].
    split; [done|]. by intros [].
  - rewrite (Hall s Hne). cbn [selectedIds]. fold ids.
    split; [apply NoDup_new_Set|].
    split; [intros x Hx; by rewrite elem_of_new_Set in Hx|].
    split; [done|]. intros _.
    split; [intros x Hx; by rewrite elem_of_new_Set|].
    split.
    + intros Hnd. split; [by apply new_Set_NoDup_id|].
      unfold toggleSelectAll. cbn [selectedIds orders visibleColumns].
      rewrite (proj2 (Nat.eqb_eq _ _)); [done|].
      fold ids. by rewrite (proj2 Hfull Hnd).
    + intros Hdup. rewrite Hall; [done|].
      cbn [selectedIds orders]. fold ids.
      rewrite <- Hids. intros Hlen. by apply Hdup, Hfull.
Qed.

Lemma toggleSelectAll_selects_witness :
  selectedIds (toggleSelectAll two_orders) = ["a1"; "b2"] ∧
  selectedIds (toggleSelectAll (toggleSelectAll two_orders)) = [] ∧
  selectedIds (toggleSelectAll (toggleSelectAll twin_orders)) = ["a1"] ∧
  selectedIds (toggleSelectAll (setOrders [order_with_id "c3"] two_orders)) = [].
Proof.
  destruct (toggleSelectAll_selects two_orders) as (_ & _ & _ & Hall).
  destruct Hall as (_ & Hdistinct & _); [by vm_compute|].
  destruct Hdistinct as [Hfirst Hsecond];
    [apply (bool_decide_unpack _); by vm_compute|].
  split; [exact Hfirst|]. split; [exact Hsecond|]. split.
  - destruct (toggleSelectAll_selects twin_orders) as (_ & _ & _ & Htwin).
    destruct Htwin as (_ & _ & Hdup); [by vm_compute|].
    rewrite Hdup; [by vm_compute|].
    intros Hnd. by apply (bool_decide_pack _) in Hnd.
  - apply (toggleSelectAll_selects (setOrders [order_with_id "c3"] two_orders)).
    by vm_compute.
Defined.

End BlotterFacts.

(** ** Subscriptions of the price socket *)
Section SocketFacts.
Import PriceSocket.
Context {MessageHandler : Type} `{EqDecision MessageHandler}.

Lemma listeners_subscribe (channel c : string) (h : MessageHandler)
    (hs : handlers) :
  listeners c (subscribe channel h hs).1 =
    if decide (c = channel) then JSSet.add h (listeners channel hs)
    else listeners c hs.
Proof.
  unfold subscribe, listeners, handlers in *. cbv zeta. cbn [fst].
  destruct (decide (c = channel)) as [->|Hc].
  - rewrite lookup_alter_eq. case_bool_decide as Hsome.
    + destruct Hsome as [l Hl]. by rewrite Hl.
    + rewrite lookup_insert_eq. apply eq_None_not_Some in Hsome.
      by rewrite Hsome.
  - rewrite lookup_alter_ne by done. case_bool_decide; [done|].
    by rewrite lookup_insert_ne.
Qed.

Lemma listeners_unsubscribe (channel c : string) (h : MessageHandler)
    (hs hs' : handlers) :
  listeners c ((subscribe channel h hs).2 hs') =
    if decide (c = channel) then JSSet.delete h (listeners channel hs')
    else listeners c hs'.
Proof.
  unfold subscribe, listeners, handlers in *. cbv zeta. cbn [snd].
  destruct (decide (c = channel)) as [->|Hc].
  - rewrite lookup_alter_eq. by destruct (hs' !! channel).
  - by rewrite lookup_alter_ne.
Qed.

(** X18. After [subscribe] the handler is among the channel's listeners,
    once however often it was subscribed, and the other channels keep
    theirs. The function [subscribe] returns removes the handler from that
    channel and touches no other handler and no other channel; if the
    handler was not subscribed before, every channel then has the
    listeners it had. A handler subscribed twice to a channel is removed
    from it by either of the two functions alone. *)
Theorem subscribe_unsubscribe (channel : string) (h : MessageHandler)
    (hs : handlers) :
  let subscribed := (subscribe channel h hs).1 in
  let unsubscribe := (subscribe channel h hs).2 in
  h ∈ listeners channel subscribed ∧
  (h ∈ listeners channel hs →
     listeners channel subscribed = listeners channel hs) ∧
  (∀ c, c ≠ channel → (listeners c subscribed = listeners c hs ∧
                       listeners c (unsubscribe subscribed) = listeners c hs)) ∧
  (h ∉ listeners channel (unsubscribe subscribed)) ∧
  (∀ h', h' ≠ h → (h' ∈ listeners channel (unsubscribe subscribed) ↔
                   h' ∈ listeners channel hs)) ∧
  (h ∉ listeners channel hs →
     ∀ c, listeners c (unsubscribe subscribed) = listeners c hs) ∧
  (h ∉ listeners channel (unsubscribe (subscribe channel h subscribed).1)) ∧
  h ∉ listeners channel ((subscribe channel h subscribed).2
                           (subscribe channel h subscribed).1).
Proof.
  cbv zeta.
  assert (Hsub : listeners channel (subscribe channel h hs).1 =
                 JSSet.add h (listeners channel hs)).
  { rewrite listeners_subscribe. by destruct (decide _). }
  assert (Hun : ∀ hs0 hs', listeners channel ((subscribe channel h hs0).2 hs') =
                       JSSet.delete h (listeners channel hs')).
  { intros hs0 hs'. rewrite listeners_unsubscribe. by destruct (decide _). }
  split; [rewrite Hsub; apply elem_of_add; by left|].
  split.
  { intros Hin. rewrite Hsub. unfold JSSet.add, JSSet.has.
    by rewrite bool_decide_eq_true_2. }
  split.
  { intros c Hc. rewrite listeners_unsubscribe, listeners_subscribe.
    by destruct (decide _). }
  split; [rewrite Hun, elem_of_delete; tauto|].
  split.
  { intros h' Hh'. rewrite Hun, elem_of_delete, Hsub, elem_of_add. tauto. }
  split.
  { intros Hout c. rewrite listeners_unsubscribe.
    destruct (decide (c = channel)) as [->|Hc].
    - rewrite Hsub. by apply delete_add.
    - rewrite listeners_subscribe. by destruct (decide _). }
  split; rewrite Hun, elem_of_delete; tauto.
Qed.

End SocketFacts.

Section SocketExamples.
Import PriceSocket.

Lemma subscribe_unsubscribe_witness :
  let hs : gmap string (list nat) := {[ "health" := [7%nat] ]} in
  listeners "health" (subscribe "health" 7%nat hs).1 = [7%nat] ∧
  listeners "health" (subscribe "health" 8%nat hs).1 = [7%nat; 8%nat] ∧
  ∀ c, listeners c ((subscribe "order_sync" 7%nat hs).2
                      (subscribe "order_sync" 7%nat hs).1) = listeners c hs.
Proof.
  cbv zeta. split; [by vm_compute|]. split; [by vm_compute|].
  apply (subscribe_unsubscribe "order_sync" 7%nat {[ "health" := [7%nat] ]}).
  intros Hin. vm_compute in Hin. inversion Hin.
Defined.

End SocketExamples.

(** ** The delta of the order header *)
Section HeaderFacts.
Import OrderHeaderView.

Lemma toFixed_negative (x : JS.number) (f : nat) :
  JS.lt0 x = true → JS.toFixed x f = String "-" (JS.toFixed (JS.abs x) f).
Proof.
  destruct x as [[]|[]| |[] m e]; try discriminate; intros _; [reflexivity|].
  unfold JS.toFixed. cbn [JS.abs SFabs].
  destruct (SFleb _ _); reflexivity.
Qed.

(** X19. The header shows a delta exactly when the delta is neither zero
    nor NaN, and then with its sign in front: [+] and the rounded delta
    for a delta above zero, [-] and the rounded absolute value for one
    below. A delta that rounds to zero is still shown, as [+0] or [-0]. *)
Theorem deltaStr_signed (delta : JS.number) :
  shows_delta delta = JS.truthy delta ∧
  (JS.gt0 delta = true → deltaStr delta = "+" +:+ JS.toFixed delta 0) ∧
  (JS.lt0 delta = true →
     deltaStr delta = "-" +:+ JS.toFixed (JS.abs delta) 0).
Proof.
  split; [|split].
  - unfold shows_delta, deltaStr.
    destruct delta as [[]|[]| |[] m e]; try reflexivity.
    change (JS.gt0 (S754_finite true m e)) with false.
    change (JS.lt0 (S754_finite true m e)) with true.
    cbv iota. by rewrite toFixed_negative.
  - intros Hpos. unfold deltaStr. by rewrite Hpos.
  - intros Hneg. unfold deltaStr.
    assert (Hpos : JS.gt0 delta = false)
      by (by destruct delta as [[]|[]| |[] m e]).
    by rewrite Hpos, Hneg, toFixed_negative.
Qed.

Lemma deltaStr_signed_witness :
  deltaStr (JS.of_decimal false 4 (-1)) = "+0" ∧
  deltaStr (JS.of_decimal true 4 (-1)) = "-0" ∧
  deltaStr (JS.of_decimal true 155 (-1)) = "-16" ∧
  shows_delta (JS.of_decimal false 4 (-1)) = true.
Proof.
  split; [|split; [|split]].
  - rewrite (proj1 (proj2 (deltaStr_signed (JS.of_decimal false 4 (-1)))));
      by vm_compute.
  - rewrite (proj2 (proj2 (deltaStr_signed (JS.of_decimal true 4 (-1)))));
      by vm_compute.
  - rewrite (proj2 (proj2 (deltaStr_signed (JS.of_decimal true 155 (-1)))));
      by vm_compute.
  - rewrite (proj1 (deltaStr_signed (JS.of_decimal false 4 (-1)))).
    by vm_compute.
Defined.

End HeaderFacts.
